(** * Adverse-event severity resolution (ime2.py): a shallow embedding

    The development follows [src/ime2/ime2.py]: the corpus loader, the two
    severity functions, the event extractor with its duplicate filter, and
    the loop of [analyze_text] that resolves a severity per event and writes
    the numbered response fields.

    Conventions of the embedding.
    - A Python [str] is a [string] of one-byte characters; [str.lower] acts
      on the letters A-Z and [str.strip] removes the ASCII white space that
      Python's [str.isspace] recognises (codes 9-13, 28-31 and 32).
    - A Python [set] of strings is a [gset string]; the response dictionary
      is a [gmap string string].
    - An exception is a value of [py_exception]; a function that may raise
      returns a [result].
    - The oracle (the Ollama service) and the parsers of the Python library
      ([json.loads], [eval]) are inputs of the model. The fields of an
      oracle entry are strings when they are present, which is the shape the
      prompt asks for. *)

From Stdlib Require Import Ascii String.
From stdpp Require Import base strings gmap list pretty.

Local Open Scope string_scope.

(** ** Python string primitives *)

Module PyStr.

(** [c.lower()] on one character. *)
Definition lower_ascii (c : ascii) : ascii :=
  let n := nat_of_ascii c in
  if (65 <=? n)%nat && (n <=? 90)%nat then ascii_of_nat (n + 32) else c.

(** [c.isspace()] on one character. *)
Definition is_space (c : ascii) : bool :=
  let n := nat_of_ascii c in
  ((9 <=? n)%nat && (n <=? 13)%nat) || ((28 <=? n)%nat && (n <=? 32)%nat).

(** [s.lower()] *)
Fixpoint lower (s : string) : string :=
  match s with
  | "" => ""
  | String c s' => String (lower_ascii c) (lower s')
  end.

(** [s.lstrip()] *)
Fixpoint lstrip (s : string) : string :=
  match s with
  | "" => ""
  | String c s' => if is_space c then lstrip s' else s
  end.

(** [s.rstrip()] *)
Fixpoint rstrip (s : string) : string :=
  match s with
  | "" => ""
  | String c s' =>
      match rstrip s' with
      | "" => if is_space c then "" else String c ""
      | r => String c r
      end
  end.

(** [s.strip()] *)
Definition strip (s : string) : string := rstrip (lstrip s).

(** [s.startswith(p)] *)
Fixpoint startswith (p s : string) : bool :=
  match p, s with
  | "", _ => true
  | String a p', String b s' => if decide (a = b) then startswith p' s' else false
  | String _ _, "" => false
  end.

(** [sub in s] *)
Fixpoint contains (sub s : string) : bool :=
  startswith sub s ||
  match s with
  | "" => false
  | String _ s' => contains sub s'
  end.

(** [not s]: the empty string is the only falsy string. *)
Definition is_empty (s : string) : bool := bool_decide (s = "").

(** [s.split(sep)] for a one-character separator; [cur] holds the
    characters of the current field, most recent first. *)
Fixpoint split_go (sep : ascii) (cur : string) (s : string) : list string :=
  match s with
  | "" => [String.rev cur]
  | String c s' =>
      if decide (c = sep) then String.rev cur :: split_go sep "" s'
      else split_go sep (String c cur) s'
  end.

Definition split (sep : ascii) (s : string) : list string := split_go sep "" s.

End PyStr.

Import PyStr.

(** ** Exceptions *)

Inductive py_exception : Type :=
  | ValueError (msg : string)
  | Exception (msg : string).

Inductive result (A : Type) : Type :=
  | Ok (a : A)
  | Raise (e : py_exception).

Arguments Ok {A} a.
Arguments Raise {A} e.

(** Sequencing: an exception of the first computation propagates. *)
#[global] Instance result_ret : MRet result := λ A a, Ok a.
#[global] Instance result_bind : MBind result := λ A B k r,
  match r with
  | Ok a => k a
  | Raise e => Raise e
  end.

(** ** The reference corpora (lines 25-28 and 161-181) *)

(** What [pd.read_csv(filepath, header=None, encoding='utf-8')] followed by
    [df[0].dropna()] gives for one path: [FileNotFoundError], some other
    exception, or the cells of the first column. *)
Inductive csv_source : Type :=
  | Missing
  | Unreadable (e : py_exception)
  | Rows (first_column : list string).

Definition load_terms (src : csv_source) : result (gset string) :=
  match src with
  | Missing => Ok ∅
  | Unreadable e => Raise e
  | Rows col => Ok (list_to_set ((λ term, strip (lower term)) <$> col))
  end.

Record corpora : Type := Corpora {
  medically_significant_terms : gset string;
  significant_disability_terms : gset string;
  congenital_anomaly_terms : gset string
}.

(** The three paths are read in the order of the source: medically
    significant, significant disability, congenital anomaly. *)
Definition load_ae_terms_from_csv
    (medically_significant_path significant_disability_path
     congenital_anomaly_path : csv_source) : result corpora :=
  ms ← load_terms medically_significant_path;
  sd ← load_terms significant_disability_path;
  ca ← load_terms congenital_anomaly_path;
  Ok (Corpora ms sd ca).

(** Lines 337-342: the corpora are loaded once, when the module is
    imported; an exception of the load is logged and raised again, so the
    server does not start. *)
Definition startup
    (medically_significant_path significant_disability_path
     congenital_anomaly_path : csv_source) : result corpora :=
  match load_ae_terms_from_csv medically_significant_path
          significant_disability_path congenital_anomaly_path with
  | Ok c => Ok c
  | Raise e => Raise e
  end.

(** ** Severity from the corpora and from keywords (lines 183-222) *)

(** [any(keyword in s for keyword in keywords)] *)
Definition any_in (keywords : list string) (s : string) : bool :=
  existsb (λ keyword, contains keyword s) keywords.

(** The test that [check_csv_severity] applies to one corpus: some entry
    of [tier] occurs in the lowercased, trimmed term. *)
Definition tier_match (tier : gset string) (ae_term : string) : bool :=
  any_in (elements tier) (strip (lower ae_term)).

Definition check_csv_severity (ae_term : string) (c : corpora) : option string :=
  let ae_term_lower := strip (lower ae_term) in
  if any_in (elements (significant_disability_terms c)) ae_term_lower then
    Some "Significant disability or incapacity"
  else if any_in (elements (congenital_anomaly_terms c)) ae_term_lower then
    Some "Congenital anomaly or birth defect"
  else if any_in (elements (medically_significant_terms c)) ae_term_lower then
    Some "Medically significant"
  else None.

Definition severity_rules (c : corpora) : list (list string * string) :=
  [ (["death"; "fatal"; "mortality"; "died"; "passed away"; "deceased";
      "expired"; "demise"],
     "Fatal or death");
    (["life-threatening"; "ventilator"; "emergency intervention";
      "critical condition"; "near death"; "almost died"; "intensive care"],
     "Life threatening");
    (["hospitalization"; "hospital"; "admitted"; "admission";
      "emergency room"; "ER visit"],
     "Inpatient hospitalization or prolongation of hospitalization");
    (elements (significant_disability_terms c),
     "Significant disability or incapacity");
    (elements (congenital_anomaly_terms c),
     "Congenital anomaly or birth defect");
    (elements (medically_significant_terms c),
     "Medically significant") ].

(** The [for keywords, severity in severity_rules] loop with its
    fall-through [return]. *)
Fixpoint first_rule (rules : list (list string * string)) (s : string) : string :=
  match rules with
  | [] => "None of the above"
  | (keywords, severity) :: rest =>
      if any_in keywords s then severity else first_rule rest s
  end.

Definition determine_adr_severity_for_diagnosed
    (ae_term : string) (c : corpora) : string :=
  let ae_term_lower := strip (lower ae_term) in
  first_rule (severity_rules c) ae_term_lower.

(** ** Parsing the oracle's reply (lines 30-51) *)

(** One entry of ["Adverse_Events"]; [None] is an absent key. *)
Record oracle_event : Type := OracleEvent {
  o_Term : option string;
  o_Severity : option string
}.

(** A parsed reply: something that is not a [dict], or a [dict] with or
    without the key ["Adverse_Events"]. *)
Inductive parsed : Type :=
  | NotDict
  | Dict (adverse_events : option (list oracle_event)).

(** [re.sub(r'```(json)?|```', '', text)]: [skip] counts the characters
    of the current match that are still to be dropped. *)
Fixpoint remove_fences_go (skip : nat) (s : string) : string :=
  match s with
  | "" => ""
  | String c s' =>
      match skip with
      | S k => remove_fences_go k s'
      | O =>
          if startswith "```json" s then remove_fences_go 6 s'
          else if startswith "```" s then remove_fences_go 2 s'
          else String c (remove_fences_go 0 s')
      end
  end.

Definition remove_fences (s : string) : string := remove_fences_go 0 s.

(** The longest prefix of [s] that ends with a closing brace. *)
Fixpoint upto_last_brace (s : string) : option string :=
  match s with
  | "" => None
  | String c s' =>
      match upto_last_brace s' with
      | Some r => Some (String c r)
      | None => if decide (c = "}"%char) then Some (String c "") else None
      end
  end.

(** [re.search(r'\{.*\}', t, re.DOTALL)]: from the first opening brace to
    the last closing brace after it; [None] is no match. *)
Fixpoint brace_search (s : string) : option string :=
  match s with
  | "" => None
  | String c s' =>
      if decide (c = "{"%char) then
        match upto_last_brace s' with
        | Some r => Some (String c r)
        | None => None
        end
      else brace_search s'
  end.

Section Parsing.

(** [json.loads] and [eval]; [None] stands for any exception. *)
Variable json_loads : string → option parsed.
Variable py_eval : string → option parsed.

Definition parsing_strategies : list (string → option parsed) :=
  [ (λ t, json_loads t);
    (λ t, g ← brace_search t; json_loads g);
    (λ t, py_eval t) ].

(** The [for strategy in parsing_strategies] loop and the final [raise]. *)
Fixpoint try_strategies (strategies : list (string → option parsed))
    (text : string) : result parsed :=
  match strategies with
  | [] => Raise (ValueError "Could not parse JSON after trying multiple strategies")
  | strategy :: rest =>
      match strategy text with
      | Some v => Ok v
      | None => try_strategies rest text
      end
  end.

Definition safe_json_loads (text : string) : result parsed :=
  let text := strip text in
  let text := strip (remove_fences text) in
  try_strategies parsing_strategies text.

End Parsing.

(** ** Extraction (lines 224-335) *)

(** The dictionaries that [extract_medical_information] builds. *)
Record event : Type := Event {
  Term : string;
  Severity : string;
  Is_Diagnosis : bool
}.

(** The branch taken when a diagnosed condition was found. *)
Definition diagnosed_events (diagnosed_condition : string) : list event :=
  if contains "," diagnosed_condition then
    let conditions :=
      strip <$> List.filter (λ condition, negb (is_empty (strip condition)))
                            (split ","%char diagnosed_condition) in
    (λ condition, Event condition "To be determined" true) <$> conditions
  else
    [Event (strip diagnosed_condition) "To be determined" true].

(** One turn of the loop over ["Adverse_Events"]; the state is the list
    [events] and the set [seen_terms]. *)
Definition dedupe_step (st : list event * gset string) (ev : oracle_event)
    : list event * gset string :=
  let '(events, seen_terms) := st in
  let event_term := strip (default "" (o_Term ev)) in
  let event_severity := default "None of the above" (o_Severity ev) in
  if is_empty event_term then st
  else
    let term_lower := strip (lower event_term) in
    if decide (term_lower ∈ seen_terms) then st
    else ((events ++ [Event event_term event_severity false])%list,
          {[term_lower]} ∪ seen_terms).

Definition collect_events (adverse_events : list oracle_event) : list event :=
  (fold_left dedupe_step adverse_events ([], ∅)).1.

(** ** The response (lines 344-427) *)

Definition severity_priority : list string :=
  [ "Fatal or death";
    "Life threatening";
    "Inpatient hospitalization or prolongation of hospitalization";
    "Congenital anomaly or birth defect";
    "Significant disability or incapacity";
    "Medically significant";
    "None of the above" ].

(** [not ai_severity or ai_severity.strip() == "" or
    ai_severity == "To be determined"] *)
Definition is_placeholder (ai_severity : string) : bool :=
  is_empty ai_severity || is_empty (strip ai_severity)
  || bool_decide (ai_severity = "To be determined").

(** Lines 405-408: ["Serious"] for the members of
    [severity_priority[:-1]]. *)
Definition seriousness_of (final_severity : string) : string :=
  if bool_decide (final_severity ∈ take (length severity_priority - 1) severity_priority)
  then "Serious" else "Non-Serious".

(** What one turn of the loop computes for an event whose term is not
    empty. *)
Record resolved : Type := Resolved {
  r_term : string;
  r_severity : string;
  r_seriousness : string
}.

(** The body of the loop up to the choice of the keys; [None] is the
    [continue] of an empty term. *)
Definition resolve_event (c : corpora) (ev : event) : option resolved :=
  let ae_term := strip (Term ev) in
  if is_empty ae_term then None
  else
    let ai_severity := Severity ev in
    let ai_severity :=
      if is_placeholder ai_severity then
        if Is_Diagnosis ev then determine_adr_severity_for_diagnosed ae_term c
        else "None of the above"
      else ai_severity in
    let csv_severity := check_csv_severity ae_term c in
    let final_severity := default ai_severity csv_severity in
    let seriousness := seriousness_of final_severity in
    Some (Resolved ae_term final_severity seriousness).

(** The key [name] for the event numbered [i]: bare for 1, [f'name{i}']
    otherwise. *)
Definition field (name : string) (i : nat) : string :=
  if decide (i = 1) then name else name +:+ pretty i.

(** The three keys written for one event. *)
Definition field_names : list string :=
  [ "Adverse_Event_Terms"; "Side_Effect_Severity"; "Side_Effect_Seriousness" ].

Definition analyze_step (c : corpora) (response_data : gmap string string)
    (ie : nat * event) : gmap string string :=
  let '(i, ev) := ie in
  match resolve_event c ev with
  | None => response_data
  | Some r =>
      <[field "Side_Effect_Seriousness" i := r_seriousness r]>
        (<[field "Side_Effect_Severity" i := r_severity r]>
           (<[field "Adverse_Event_Terms" i := r_term r]> response_data))
  end.

(** [enumerate(l, start)] *)
Fixpoint enumerate {A : Type} (start : nat) (l : list A) : list (nat * A) :=
  match l with
  | [] => []
  | x :: l' => (start, x) :: enumerate (S start) l'
  end.

(** The loop of [analyze_text] over the events it was handed. *)
Definition assemble (c : corpora) (result : list event) : gmap string string :=
  let events := take 5 result in
  fold_left (analyze_step c) (enumerate 1 events) ∅.

(** The request: not JSON, or a JSON body with or without ["text"]. *)
Inductive request : Type :=
  | NotJson
  | Json (text : option string).

Section Pipeline.

Variable json_loads : string → option parsed.
Variable py_eval : string → option parsed.

(** [call_diagnostic_ollama(text)]: the diagnosed condition, [""] when
    the call or its parsing failed. *)
Variable call_diagnostic_ollama : string → string.

(** [call_ollama(prompt.format(text=text))]: the response text, or the
    exception raised after the retries. *)
Variable call_ollama : string → result string.

Definition extract_medical_information (text : string) : result (list event) :=
  let diagnosed_condition := call_diagnostic_ollama text in
  if negb (is_empty diagnosed_condition)
     && negb (is_empty (strip diagnosed_condition)) then
    Ok (diagnosed_events diagnosed_condition)
  else
    response_text ← call_ollama text;
    extracted_info ← safe_json_loads json_loads py_eval response_text;
    match extracted_info with
    | Dict (Some adverse_events) => Ok (take 5 (collect_events adverse_events))
    | Dict None | NotDict => Raise (ValueError "Invalid response format")
    end.

(** The JSON body and the status code that [analyze_text] returns. *)
Definition analyze_text (c : corpora) (req : request) : gmap string string * nat :=
  match req with
  | NotJson => ({[ "error" := "Request must be JSON" ]}, 400)
  | Json data_text =>
      let text := strip (default "" data_text) in
      if is_empty text then
        ({[ "error" := "No text provided for analysis" ]}, 400)
      else
        match extract_medical_information text with
        | Ok result => (assemble c result, 200)
        | Raise (ValueError ve) => ({[ "error" := ve ]}, 400)
        | Raise (Exception _) => ({[ "error" := "Internal server error" ]}, 500)
        end
  end.

End Pipeline.

(** ** The two calls to the Ollama service (lines 53-159) *)

(** What one [requests.post] attempt gives: an exception (of the request,
    of [response.json()] or of [result.get]), or a status code together
    with [result.get('response', '')], which is read for status 200 only. *)
Inductive post_outcome : Type :=
  | PostRaised
  | Answered (status_code : nat) (response_text : string).

(** The [for attempt in range(max_retries)] loop of [call_ollama] from
    attempt number [attempt] on, with [remaining] attempts to go; [post]
    gives the outcome of each attempt. *)
Fixpoint call_ollama_from (post : nat → post_outcome) (attempt remaining : nat)
    : result string :=
  match remaining with
  | O => Raise (Exception "Failed to get response from Ollama after multiple attempts")
  | S remaining' =>
      match post attempt with
      | Answered status_code response_text =>
          if decide (status_code = 200) then
            if is_empty response_text then
              call_ollama_from post (S attempt) remaining'
            else Ok response_text
          else call_ollama_from post (S attempt) remaining'
      | PostRaised => call_ollama_from post (S attempt) remaining'
      end
  end.

Definition call_ollama (post : nat → post_outcome) (max_retries : nat)
    : result string :=
  call_ollama_from post 0 max_retries.

(** A parsed reply of the diagnosis call: not a [dict], or a [dict] with
    or without the key ["Diagnosed_Condition"]. *)
Inductive diagnosis_reply : Type :=
  | DiagNotDict
  | DiagDict (Diagnosed_Condition : option string).

Section ParsingAt.

(** [safe_json_loads] is used on the replies of both calls; this is the
    same function for replies of any shape [A]. *)
Context {A : Type}.
Variable json_loads : string → option A.
Variable py_eval : string → option A.

Definition parsing_strategies_at : list (string → option A) :=
  [ (λ t, json_loads t);
    (λ t, g ← brace_search t; json_loads g);
    (λ t, py_eval t) ].

Fixpoint try_strategies_at (strategies : list (string → option A))
    (text : string) : result A :=
  match strategies with
  | [] => Raise (ValueError "Could not parse JSON after trying multiple strategies")
  | strategy :: rest =>
      match strategy text with
      | Some v => Ok v
      | None => try_strategies_at rest text
      end
  end.

Definition safe_json_loads_at (text : string) : result A :=
  let text := strip text in
  let text := strip (remove_fences text) in
  try_strategies_at parsing_strategies_at text.

End ParsingAt.

Section DiagnosticCall.

Variable json_loads : string → option diagnosis_reply.
Variable py_eval : string → option diagnosis_reply.

(** The [try] around [safe_json_loads] and [parsed.get]: the bare
    [except] turns every exception into [""]. *)
Definition diagnosed_condition_of (response_text : string) : string :=
  match safe_json_loads_at json_loads py_eval response_text with
  | Ok (DiagDict (Some diagnosed_condition)) => diagnosed_condition
  | Ok (DiagDict None) => ""
  | Ok DiagNotDict => ""
  | Raise _ => ""
  end.

(** The loop of [call_diagnostic_ollama] and its final [return ""]. *)
Fixpoint call_diagnostic_ollama_from (post : nat → post_outcome)
    (attempt remaining : nat) : string :=
  match remaining with
  | O => ""
  | S remaining' =>
      match post attempt with
      | Answered status_code response_text =>
          if decide (status_code = 200) then
            if is_empty response_text then
              call_diagnostic_ollama_from post (S attempt) remaining'
            else diagnosed_condition_of response_text
          else call_diagnostic_ollama_from post (S attempt) remaining'
      | PostRaised => call_diagnostic_ollama_from post (S attempt) remaining'
      end
  end.

Definition call_diagnostic_ollama (post : nat → post_outcome) (max_retries : nat)
    : string :=
  call_diagnostic_ollama_from post 0 max_retries.

End DiagnosticCall.

(** [analyze_text] with both calls made through the service, each with
    the default [max_retries=3]; [post_diagnosis] and [post_events] give
    the outcomes of the attempts of the two calls for a text. *)
Definition analyze_text_served
    (json_loads_diagnosis py_eval_diagnosis : string → option diagnosis_reply)
    (json_loads py_eval : string → option parsed)
    (post_diagnosis post_events : string → nat → post_outcome)
    (c : corpora) (req : request) : gmap string string * nat :=
  analyze_text json_loads py_eval
    (λ text, call_diagnostic_ollama json_loads_diagnosis py_eval_diagnosis
               (post_diagnosis text) 3)
    (λ text, call_ollama (post_events text) 3)
    c req.

(** ** Vocabulary of the statements *)

(** The response text that an attempt hands back, if it does: status 200
    and a text that is not empty. *)
Definition usable (o : post_outcome) : option string :=
  match o with
  | Answered status_code response_text =>
      if decide (status_code = 200) then
        if is_empty response_text then None else Some response_text
      else None
  | PostRaised => None
  end.


(** [severity_rules] with the keyword "ER visit" taken out of the third
    row. *)
Definition severity_rules_without_er_visit (c : corpora)
    : list (list string * string) :=
  [ (["death"; "fatal"; "mortality"; "died"; "passed away"; "deceased";
      "expired"; "demise"],
     "Fatal or death");
    (["life-threatening"; "ventilator"; "emergency intervention";
      "critical condition"; "near death"; "almost died"; "intensive care"],
     "Life threatening");
    (["hospitalization"; "hospital"; "admitted"; "admission"; "emergency room"],
     "Inpatient hospitalization or prolongation of hospitalization");
    (elements (significant_disability_terms c),
     "Significant disability or incapacity");
    (elements (congenital_anomaly_terms c),
     "Congenital anomaly or birth defect");
    (elements (medically_significant_terms c),
     "Medically significant") ].

(** The keywords of the first row of [severity_rules]. *)
Definition fatal_keywords : list string :=
  ["death"; "fatal"; "mortality"; "died"; "passed away"; "deceased";
   "expired"; "demise"].

(** The dictionary appended for an oracle entry that is kept. *)
Definition to_event (oe : oracle_event) : event :=
  Event (strip (default "" (o_Term oe)))
        (default "None of the above" (o_Severity oe)) false.

(** The comparison key of the duplicate check: [event_term.lower().strip()]. *)
Definition term_key (ev : event) : string := strip (lower (Term ev)).

(** The loop over ["Adverse_Events"] read front to back: the entries kept
    from [l] when the keys in [seen] have been met already. *)
Fixpoint kept_from (seen : gset string) (l : list oracle_event) : list event :=
  match l with
  | [] => []
  | oe :: l' =>
      if is_empty (Term (to_event oe)) then kept_from seen l'
      else if decide (term_key (to_event oe) ∈ seen) then kept_from seen l'
      else to_event oe :: kept_from ({[term_key (to_event oe)]} ∪ seen) l'
  end.

(** The comparison keys of the entries of the oracle that have a term:
    the distinct terms of the reply, up to case and outer white space. *)
Definition distinct_keys (l : list oracle_event) : gset string :=
  list_to_set (term_key <$> filter (λ ev, Term ev ≠ "") (to_event <$> l)).


(** * Properties *)

(** ** Strings *)

Section StringFacts.

Lemma startswith_nil_r p : startswith p "" = true → p = "".
Proof. by destruct p. Qed.

Lemma contains_nil sub s : sub = "" → contains sub s = true.
Proof. intros ->. by destruct s. Qed.

Lemma contains_in_nil sub : contains sub "" = true → sub = "".
Proof. destruct sub; [done|]. simpl. discriminate. Qed.

Lemma contains_cons sub c s :
  contains sub s = true → contains sub (String c s) = true.
Proof.
  intros H. change (startswith sub (String c s) || contains sub s = true).
  rewrite H. apply orb_true_r.
Qed.

Lemma contains_unfold sub c s :
  contains sub (String c s) = startswith sub (String c s) || contains sub s.
Proof. done. Qed.

Lemma lower_ascii_space c : is_space (lower_ascii c) = is_space c.
Proof.
  destruct c as [[] [] [] [] [] [] [] []]; vm_compute; reflexivity.
Qed.

Lemma lower_nil s : lower s = "" → s = "".
Proof. by destruct s. Qed.

Lemma lower_lstrip s : lower (lstrip s) = lstrip (lower s).
Proof.
  induction s as [|c s IH]; [done|].
  cbn [lstrip lower]. rewrite lower_ascii_space.
  destruct (is_space c); [done|]. reflexivity.
Qed.

Lemma lower_rstrip s : lower (rstrip s) = rstrip (lower s).
Proof.
  induction s as [|c s IH]; [done|].
  cbn [rstrip lower]. rewrite <- IH.
  destruct (rstrip s) as [|d r] eqn:E.
  - cbn [lower]. rewrite lower_ascii_space. by destruct (is_space c).
  - reflexivity.
Qed.

Lemma lower_strip s : lower (strip s) = strip (lower s).
Proof. unfold strip. by rewrite lower_rstrip, lower_lstrip. Qed.

(** A left-trimmed string is empty or starts with a visible character. *)
Lemma lstrip_head s :
  lstrip s = "" ∨ ∃ c t, lstrip s = String c t ∧ is_space c = false.
Proof.
  induction s as [|c s IH]; [by left|].
  cbn [lstrip]. destruct (is_space c) eqn:E; [done|]. right; eauto.
Qed.

Lemma lstrip_fixed c t : is_space c = false → lstrip (String c t) = String c t.
Proof. intros H. cbn [lstrip]. by rewrite H. Qed.

Lemma rstrip_cons_visible c t :
  is_space c = false → ∃ r, rstrip (String c t) = String c r.
Proof.
  intros H. cbn [rstrip]. destruct (rstrip t); [rewrite H|]; eauto.
Qed.

Lemma rstrip_idemp s : rstrip (rstrip s) = rstrip s.
Proof.
  induction s as [|c s IH]; [done|].
  cbn [rstrip]. destruct (rstrip s) as [|d r] eqn:E.
  - destruct (is_space c) eqn:Ec; [done|]. cbn [rstrip]. by rewrite Ec.
  - cbn [rstrip]. cbn [rstrip] in IH.
    destruct (rstrip r) as [|d' r'] eqn:Er.
    + destruct (is_space d) eqn:Ed; [discriminate|]. by rewrite IH.
    + by rewrite IH.
Qed.

Lemma lstrip_strip s : lstrip (strip s) = strip s.
Proof.
  unfold strip. destruct (lstrip_head s) as [->|(c & t & -> & Hc)]; [done|].
  destruct (rstrip_cons_visible c t Hc) as [r ->]. by apply lstrip_fixed.
Qed.

Lemma rstrip_strip s : rstrip (strip s) = strip s.
Proof. apply rstrip_idemp. Qed.

Lemma strip_idemp s : strip (strip s) = strip s.
Proof. unfold strip at 1. by rewrite lstrip_strip, rstrip_strip. Qed.

(** What [check_csv_severity] compares against is the lowercased,
    trimmed term, whether or not the caller trimmed it first. *)
Lemma strip_lower_strip s : strip (lower (strip s)) = strip (lower s).
Proof. by rewrite lower_strip, strip_idemp. Qed.

Lemma strip_lower_nil s : strip (lower s) = "" → strip s = "".
Proof. rewrite <- lower_strip. apply lower_nil. Qed.

End StringFacts.

(** ** An occurrence of a trimmed entry survives trimming *)

Section Occurrences.

Lemma startswith_head a p c s :
  startswith (String a p) (String c s) = true → a = c ∧ startswith p s = true.
Proof. cbn [startswith]. by case_decide. Qed.

Lemma contains_lstrip a p s :
  is_space a = false →
  contains (String a p) s = true → contains (String a p) (lstrip s) = true.
Proof.
  intros Ha. induction s as [|c s IH]; [done|].
  intros H. cbn [lstrip]. destruct (is_space c) eqn:Ec; [|done].
  rewrite contains_unfold in H. apply orb_true_iff in H as [H|H]; [|by apply IH].
  apply startswith_head in H as [-> _]. congruence.
Qed.

Lemma rstrip_nonempty_fixed a p :
  p ≠ "" → rstrip (String a p) = String a p → rstrip p = p.
Proof.
  intros Hp. cbn [rstrip]. destruct (rstrip p) as [|d r] eqn:E.
  - destruct (is_space a); intros H; simplify_eq.
  - intros H. by simplify_eq.
Qed.

Lemma rstrip_single_visible a : rstrip (String a "") = String a "" → is_space a = false.
Proof. cbn [rstrip]. by destruct (is_space a). Qed.

Lemma startswith_nonempty p s : p ≠ "" → startswith p s = true → s ≠ "".
Proof. by destruct p, s. Qed.

Lemma rstrip_cons_nonempty c s : rstrip s ≠ "" → rstrip (String c s) = String c (rstrip s).
Proof. intros H. cbn [rstrip]. by destruct (rstrip s). Qed.

Lemma startswith_rstrip p s :
  p ≠ "" → rstrip p = p →
  startswith p s = true → startswith p (rstrip s) = true.
Proof.
  revert s. induction p as [|a p IH]; [done|].
  intros [|c s] _ Hfix H; [done|].
  apply startswith_head in H as [-> H].
  destruct (decide (p = "")) as [->|Hp].
  - apply rstrip_single_visible in Hfix.
    destruct (rstrip_cons_visible c s Hfix) as [r ->].
    cbn [startswith]. by rewrite decide_True.
  - apply rstrip_nonempty_fixed in Hfix; [|done].
    pose proof (IH s Hp Hfix H) as IH'.
    rewrite rstrip_cons_nonempty; [|by eapply startswith_nonempty].
    cbn [startswith]. by rewrite decide_True.
Qed.

Lemma contains_nonempty p s : p ≠ "" → contains p s = true → s ≠ "".
Proof. intros Hp H ->. by apply contains_in_nil in H. Qed.

Lemma contains_rstrip p s :
  p ≠ "" → rstrip p = p →
  contains p s = true → contains p (rstrip s) = true.
Proof.
  intros Hp Hfix. induction s as [|c s IH]; [done|].
  rewrite contains_unfold. intros [H|H]%orb_true_iff.
  - apply (startswith_rstrip p (String c s)) in H; [|done..].
    destruct (rstrip (String c s)); [by apply startswith_nil_r in H|].
    rewrite contains_unfold, H. done.
  - specialize (IH H).
    rewrite rstrip_cons_nonempty; [|by eapply contains_nonempty].
    by apply contains_cons.
Qed.

(** A trimmed entry: what [load_terms] stores. *)
Lemma trimmed_parts e : strip e = e → lstrip e = e ∧ rstrip e = e.
Proof.
  intros H. split.
  - rewrite <- H at 1. by rewrite lstrip_strip.
  - rewrite <- H at 1. by rewrite rstrip_strip.
Qed.

Lemma contains_strip e s :
  strip e = e → e ≠ "" →
  contains e s = true → contains e (strip s) = true.
Proof.
  intros [Hl Hr]%trimmed_parts He H. unfold strip.
  apply contains_rstrip; [done..|].
  destruct (lstrip_head e) as [E|(a & p & E & Ha)]; rewrite Hl in E; [done|].
  subst e. by apply contains_lstrip.
Qed.

End Occurrences.

(** ** The corpora and the two severity functions *)

Section Severity.

Lemma any_in_true keywords s :
  any_in keywords s = true ↔ ∃ k, k ∈ keywords ∧ contains k s = true.
Proof.
  unfold any_in. rewrite existsb_exists. setoid_rewrite list_elem_of_In. done.
Qed.

Lemma tier_match_true tier ae_term :
  tier_match tier ae_term = true ↔
  ∃ entry, entry ∈ tier ∧ contains entry (strip (lower ae_term)) = true.
Proof.
  unfold tier_match. rewrite any_in_true. by setoid_rewrite elem_of_elements.
Qed.

(** Trimming the term beforehand, as [analyze_text] does, changes no
    corpus test. *)
Lemma tier_match_strip tier ae_term :
  tier_match tier (strip ae_term) = tier_match tier ae_term.
Proof. unfold tier_match. by rewrite strip_lower_strip. Qed.

Lemma load_terms_trimmed src terms entry :
  load_terms src = Ok terms → entry ∈ terms → strip entry = entry.
Proof.
  destruct src as [|e|col]; intros H Hin; simplify_eq/=.
  - set_solver.
  - apply elem_of_list_to_set, list_elem_of_fmap in Hin as (raw & -> & _).
    apply strip_idemp.
Qed.

Lemma load_ae_terms_inv ms sd ca c :
  load_ae_terms_from_csv ms sd ca = Ok c →
  load_terms ms = Ok (medically_significant_terms c) ∧
  load_terms sd = Ok (significant_disability_terms c) ∧
  load_terms ca = Ok (congenital_anomaly_terms c).
Proof.
  unfold load_ae_terms_from_csv, mbind, result_bind.
  destruct (load_terms ms), (load_terms sd), (load_terms ca); intros H;
    by simplify_eq/=.
Qed.

(** [check_csv_severity] as a case analysis on the three corpus tests. *)
Lemma check_csv_severity_cases ae_term c :
  check_csv_severity ae_term c =
    if tier_match (significant_disability_terms c) ae_term then
      Some "Significant disability or incapacity"
    else if tier_match (congenital_anomaly_terms c) ae_term then
      Some "Congenital anomaly or birth defect"
    else if tier_match (medically_significant_terms c) ae_term then
      Some "Medically significant"
    else None.
Proof. done. Qed.

Lemma is_empty_false s : s ≠ "" → is_empty s = false.
Proof. intros. by apply bool_decide_eq_false_2. Qed.

Lemma is_empty_true s : is_empty s = true ↔ s = "".
Proof. apply bool_decide_eq_true. Qed.

(** For a term that is not empty, the loop body reaches the choice of
    the final severity. *)
Lemma resolve_event_nonempty c ev :
  strip (Term ev) ≠ "" →
  ∃ ai_severity,
    resolve_event c ev =
      Some (Resolved (strip (Term ev))
              (default ai_severity (check_csv_severity (strip (Term ev)) c))
              (seriousness_of
                 (default ai_severity (check_csv_severity (strip (Term ev)) c)))).
Proof.
  intros H. unfold resolve_event. rewrite is_empty_false by done. eauto.
Qed.

End Severity.

(** C1. Whenever the lowercased term of a candidate contains an entry of
    the significant-disability corpus as a substring, the final severity is
    "Significant disability or incapacity", whatever severity the oracle
    gave and whether or not the candidate is a diagnosis. The corpus is any
    one that the loader produces, and the candidate's term is not blank. *)
Theorem C1_significant_disability_overrides :
  ∀ ms sd ca c ev entry,
    load_ae_terms_from_csv ms sd ca = Ok c →
    entry ∈ significant_disability_terms c →
    contains entry (lower (Term ev)) = true →
    strip (Term ev) ≠ "" →
    ∃ r, resolve_event c ev = Some r ∧
         r_severity r = "Significant disability or incapacity".
Proof.
  intros ms sd ca c ev entry Hload Hin Hsub Hne.
  destruct (resolve_event_nonempty c ev Hne) as [ai ->].
  eexists; split; [done|]. cbn [r_severity].
  rewrite check_csv_severity_cases, tier_match_strip.
  assert (tier_match (significant_disability_terms c) (Term ev) = true) as ->; [|done].
  apply tier_match_true. exists entry; split; [done|].
  destruct (decide (entry = "")) as [->|Hentry]; [by apply contains_nil|].
  apply contains_strip; [|done..].
  apply load_ae_terms_inv in Hload as (_ & Hsd & _).
  by eapply load_terms_trimmed.
Qed.

Lemma C1_witness :
  ∃ r, resolve_event
         (Corpora ∅ (list_to_set ((λ term, strip (lower term)) <$> [" Paralysis "])) ∅)
         (Event " Facial PARALYSIS (left) " "None of the above" false) = Some r ∧
       r_severity r = "Significant disability or incapacity".
Proof.
  apply (C1_significant_disability_overrides
           Missing (Rows [" Paralysis "]) Missing _ _ "paralysis").
  - reflexivity.
  - vm_compute. reflexivity.
  - vm_compute. reflexivity.
  - vm_compute. discriminate.
Defined.

(** C7. A term that matches the congenital-anomaly corpus and the
    medically-significant corpus, and not the significant-disability one,
    resolves to "Congenital anomaly or birth defect": the corpora are tried
    in the order disability, congenital anomaly, medically significant. *)
Theorem C7_congenital_before_medically_significant :
  ∀ c ev,
    strip (Term ev) ≠ "" →
    tier_match (congenital_anomaly_terms c) (Term ev) = true →
    tier_match (medically_significant_terms c) (Term ev) = true →
    tier_match (significant_disability_terms c) (Term ev) = false →
    check_csv_severity (Term ev) c = Some "Congenital anomaly or birth defect" ∧
    ∃ r, resolve_event c ev = Some r ∧
         r_severity r = "Congenital anomaly or birth defect".
Proof.
  intros c ev Hne Hca Hms Hsd. split.
  - by rewrite check_csv_severity_cases, Hsd, Hca.
  - destruct (resolve_event_nonempty c ev Hne) as [ai ->].
    eexists; split; [done|]. cbn [r_severity].
    by rewrite check_csv_severity_cases, !tier_match_strip, Hsd, Hca.
Qed.

Lemma C7_witness :
  check_csv_severity "Cleft palate with hepatitis"
    (Corpora {["hepatitis"]} {["paralysis"]} {["cleft"]})
    = Some "Congenital anomaly or birth defect" ∧
  ∃ r, resolve_event (Corpora {["hepatitis"]} {["paralysis"]} {["cleft"]})
         (Event "Cleft palate with hepatitis" "Medically significant" false) = Some r ∧
       r_severity r = "Congenital anomaly or birth defect".
Proof.
  apply (C7_congenital_before_medically_significant
           (Corpora {["hepatitis"]} {["paralysis"]} {["cleft"]})
           (Event "Cleft palate with hepatitis" "Medically significant" false)).
  - vm_compute. discriminate.
  - vm_compute. reflexivity.
  - vm_compute. reflexivity.
  - vm_compute. reflexivity.
Defined.

(** C3. A candidate that is not a diagnosis, matches no corpus and carries
    an empty or placeholder severity resolves to "None of the above" and
    "Non-Serious"; the keyword rules are not consulted, whatever the term
    contains. *)
Theorem C3_non_diagnosis_defaults_to_none :
  ∀ c ev,
    Is_Diagnosis ev = false →
    strip (Term ev) ≠ "" →
    tier_match (significant_disability_terms c) (Term ev) = false →
    tier_match (congenital_anomaly_terms c) (Term ev) = false →
    tier_match (medically_significant_terms c) (Term ev) = false →
    is_placeholder (Severity ev) = true →
    resolve_event c ev =
      Some (Resolved (strip (Term ev)) "None of the above" "Non-Serious").
Proof.
  intros c ev Hdiag Hne Hsd Hca Hms Hph.
  unfold resolve_event. rewrite is_empty_false, Hph, Hdiag by done.
  by rewrite check_csv_severity_cases, !tier_match_strip, Hsd, Hca, Hms.
Qed.

Lemma C3_witness :
  resolve_event (Corpora {["hepatitis"]} {["paralysis"]} {["cleft"]})
    (Event "patient died" "" false)
  = Some (Resolved "patient died" "None of the above" "Non-Serious").
Proof.
  apply (C3_non_diagnosis_defaults_to_none
           (Corpora {["hepatitis"]} {["paralysis"]} {["cleft"]})
           (Event "patient died" "" false)).
  - reflexivity.
  - vm_compute. discriminate.
  - vm_compute. reflexivity.
  - vm_compute. reflexivity.
  - vm_compute. reflexivity.
  - vm_compute. reflexivity.
Defined.

(** C6. On the seven values of [severity_priority] the seriousness is
    "Non-Serious" exactly for "None of the above". *)
Theorem C6_seriousness_iff_none :
  ∀ severity,
    severity ∈ severity_priority →
    (seriousness_of severity = "Non-Serious" ↔ severity = "None of the above").
Proof.
  intros severity Hin. unfold severity_priority in Hin.
  repeat (apply elem_of_cons in Hin as [->|Hin]; [by vm_compute|]).
  by apply elem_of_nil in Hin.
Qed.

Lemma C6_witness :
  seriousness_of "None of the above" = "Non-Serious" ↔
  "None of the above" = "None of the above".
Proof.
  apply (C6_seriousness_iff_none "None of the above").
  apply (bool_decide_unpack _). vm_compute. exact I.
Defined.

(** C9. A missing file gives the empty set for its tier and does not make
    the load fail: start-up succeeds whenever no source is unreadable, and
    each missing tier is then empty. When all three sources are unreadable
    the load raises, and the exception propagates out of the start-up code. *)
Theorem C9_missing_source_is_empty_unreadable_is_fatal :
  (∀ ms sd ca,
     (∀ e, ms ≠ Unreadable e) → (∀ e, sd ≠ Unreadable e) → (∀ e, ca ≠ Unreadable e) →
     ∃ c, load_ae_terms_from_csv ms sd ca = Ok c ∧ startup ms sd ca = Ok c ∧
          (ms = Missing → medically_significant_terms c = ∅) ∧
          (sd = Missing → significant_disability_terms c = ∅) ∧
          (ca = Missing → congenital_anomaly_terms c = ∅)) ∧
  (∀ e1 e2 e3,
     load_ae_terms_from_csv (Unreadable e1) (Unreadable e2) (Unreadable e3) = Raise e1 ∧
     startup (Unreadable e1) (Unreadable e2) (Unreadable e3) = Raise e1).
Proof.
  split; [|done].
  intros ms sd ca Hms Hsd Hca.
  destruct ms as [|e|m]; [|by destruct (Hms e)|];
    (destruct sd as [|e|s]; [|by destruct (Hsd e)|]);
    (destruct ca as [|e|a]; [|by destruct (Hca e)|]);
    (eexists; split; [reflexivity|]); repeat split; intros; by simplify_eq/=.
Qed.

Lemma C9_witness :
  ∃ c, load_ae_terms_from_csv Missing (Rows [" Paralysis "]) Missing = Ok c ∧
       startup Missing (Rows [" Paralysis "]) Missing = Ok c ∧
       (Missing = Missing → medically_significant_terms c = ∅) ∧
       (Rows [" Paralysis "] = Missing → significant_disability_terms c = ∅) ∧
       (Missing = Missing → congenital_anomaly_terms c = ∅).
Proof.
  apply (proj1 C9_missing_source_is_empty_unreadable_is_fatal
           Missing (Rows [" Paralysis "]) Missing); intros e; discriminate.
Defined.

(** C2. The hospitalisation keyword list holds "ER visit" with capital
    letters, while the term it is searched in has been lowercased: the
    diagnosis "ER visit" contains "er visit" once lowercased, contains no
    keyword of the two lists before it and matches no corpus, yet resolves
    to "None of the above" and not to hospitalisation. *)
Theorem C2_er_visit_not_escalated :
  let c := Corpora ∅ ∅ ∅ in
  let ev := Event "ER visit" "To be determined" true in
  contains "er visit" (lower (Term ev)) = true ∧
  any_in ["died"; "passed away"; "death"; "deceased"; "expired"; "mortality"]
         (lower (Term ev)) = false ∧
  any_in ["life-threatening"; "ventilator"; "emergency intervention";
          "critical condition"; "near death"; "almost died"; "intensive care"]
         (lower (Term ev)) = false ∧
  check_csv_severity (Term ev) c = None ∧
  determine_adr_severity_for_diagnosed (Term ev) c = "None of the above" ∧
  resolve_event c ev = Some (Resolved "ER visit" "None of the above" "Non-Serious").
Proof. vm_compute. by repeat split. Qed.

(** ** The keyword that cannot match *)

Section DeadKeyword.

Lemma lower_ascii_not_E c : lower_ascii c ≠ "E"%char.
Proof. destruct c as [[] [] [] [] [] [] [] []]; vm_compute; discriminate. Qed.

Lemma contains_E_lower p s : contains (String "E" p) (lower s) = false.
Proof.
  induction s as [|c s IH]; [done|].
  cbn [lower]. rewrite contains_unfold, IH, orb_false_r.
  cbn [startswith]. rewrite decide_False; [done|].
  intros H. by apply (lower_ascii_not_E c).
Qed.

(** No term reaches the hospitalisation rule through "ER visit". *)
Lemma er_visit_keyword_never_matches ae_term :
  contains "ER visit" (strip (lower ae_term)) = false.
Proof. rewrite <- lower_strip. apply contains_E_lower. Qed.

End DeadKeyword.

(** ** The numbered fields of the response *)

Section Fields.

Lemma field_inj_table :
  Forall (λ n1, Forall (λ n2, Forall (λ i, Forall (λ j,
    field n1 i = field n2 j → n1 = n2 ∧ i = j)
    (seq 1 5)) (seq 1 5)) field_names) field_names.
Proof. apply (bool_decide_unpack _). vm_compute. exact I. Qed.

(** Distinct names or distinct positions give distinct keys. *)
Lemma field_inj (n1 n2 : string) (i j : nat) :
  n1 ∈ field_names → n2 ∈ field_names →
  (1 ≤ i ≤ 5)%nat → (1 ≤ j ≤ 5)%nat →
  field n1 i = field n2 j → n1 = n2 ∧ i = j.
Proof.
  intros H1 H2 Hi Hj.
  pose proof field_inj_table as T.
  rewrite Forall_forall in T. specialize (T n1 H1).
  rewrite Forall_forall in T. specialize (T n2 H2).
  rewrite Forall_forall in T. specialize (T i ltac:(apply elem_of_seq; lia)).
  rewrite Forall_forall in T. apply T, elem_of_seq. lia.
Qed.

Lemma terms_name : "Adverse_Event_Terms" ∈ field_names.
Proof. apply (bool_decide_unpack _). by vm_compute. Qed.

Lemma severity_name : "Side_Effect_Severity" ∈ field_names.
Proof. apply (bool_decide_unpack _). by vm_compute. Qed.

Lemma seriousness_name : "Side_Effect_Seriousness" ∈ field_names.
Proof. apply (bool_decide_unpack _). by vm_compute. Qed.

Context (c : corpora).

Local Arguments analyze_step : simpl never.
Local Arguments field : simpl never.

Lemma analyze_step_other (m : gmap string string) (i : nat) ev (key : string) :
  (∀ n, n ∈ field_names → key ≠ field n i) →
  analyze_step c m (i, ev) !! key = m !! key.
Proof.
  intros Hkey. unfold analyze_step. destruct (resolve_event c ev) as [r|]; [|done].
  rewrite !lookup_insert_ne; [done|..];
    intros H; symmetry in H; revert H; apply Hkey;
    auto using terms_name, severity_name, seriousness_name.
Qed.

Lemma analyze_step_same (m : gmap string string) (i : nat) ev r :
  (1 ≤ i ≤ 5)%nat →
  resolve_event c ev = Some r →
  analyze_step c m (i, ev) !! field "Adverse_Event_Terms" i = Some (r_term r) ∧
  analyze_step c m (i, ev) !! field "Side_Effect_Severity" i = Some (r_severity r) ∧
  analyze_step c m (i, ev) !! field "Side_Effect_Seriousness" i = Some (r_seriousness r).
Proof.
  intros Hi Hr. unfold analyze_step. rewrite Hr.
  assert (∀ n1 n2, n1 ∈ field_names → n2 ∈ field_names → n1 ≠ n2 →
                   field n1 i ≠ field n2 i) as Hne.
  { intros n1 n2 H1 H2 Hn H. by apply field_inj in H as [? _]. }
  repeat split.
  - rewrite lookup_insert_ne, lookup_insert_ne, lookup_insert_eq; [done|..];
      apply Hne; auto using terms_name, severity_name, seriousness_name; done.
  - rewrite lookup_insert_ne, lookup_insert_eq; [done|].
    apply Hne; auto using terms_name, severity_name, seriousness_name; done.
  - by rewrite lookup_insert_eq.
Qed.

(** The keys written for the events numbered [k], [k+1], ... leave every
    other key as it was. *)
Lemma run_other l (k : nat) (m : gmap string string) (key : string) :
  (∀ n i, n ∈ field_names → (k ≤ i < k + length l)%nat → key ≠ field n i) →
  fold_left (analyze_step c) (enumerate k l) m !! key = m !! key.
Proof.
  revert k m. induction l as [|ev l IH]; intros k m Hkey; [done|].
  cbn [enumerate fold_left]. rewrite IH.
  - apply analyze_step_other. intros n Hn. apply Hkey; [done|]. simpl. lia.
  - intros n i Hn Hi. apply Hkey; [done|]. simpl. lia.
Qed.

Lemma run_lookup l (k : nat) (m : gmap string string) (i : nat) ev :
  (1 ≤ k)%nat → (k + length l ≤ 6)%nat →
  l !! i = Some ev →
  let out := fold_left (analyze_step c) (enumerate k l) m in
  match resolve_event c ev with
  | Some r =>
      out !! field "Adverse_Event_Terms" (k + i) = Some (r_term r) ∧
      out !! field "Side_Effect_Severity" (k + i) = Some (r_severity r) ∧
      out !! field "Side_Effect_Seriousness" (k + i) = Some (r_seriousness r)
  | None => ∀ n, n ∈ field_names → out !! field n (k + i) = m !! field n (k + i)
  end.
Proof.
  revert k m i. induction l as [|ev' l IH]; intros k m i Hk Hlen Hi; [done|].
  simpl in Hlen. destruct i as [|i].
  - simplify_eq/=. rewrite Nat.add_0_r.
    assert (∀ n, n ∈ field_names →
              fold_left (analyze_step c) (enumerate (S k) l) (analyze_step c m (k, ev))
                !! field n k = analyze_step c m (k, ev) !! field n k) as Hout.
    { intros n Hn. apply run_other. intros n' i Hn' Hi H.
      apply field_inj in H as [_ ?]; [lia|done..|lia|lia]. }
    destruct (resolve_event c ev) as [r|] eqn:Hr.
    + rewrite !Hout by auto using terms_name, severity_name, seriousness_name.
      apply analyze_step_same; [lia|done].
    + intros n Hn. rewrite Hout by done. unfold analyze_step. by rewrite Hr.
  - cbn [enumerate fold_left]. simpl in Hi.
    replace (k + S i) with (S k + i) by lia.
    specialize (IH (S k) (analyze_step c m (k, ev')) i ltac:(lia) ltac:(lia) Hi).
    simpl in IH. destruct (resolve_event c ev) as [r|]; [done|].
    intros n Hn. rewrite IH by done. apply analyze_step_other.
    apply lookup_lt_Some in Hi.
    intros n' Hn' H. apply field_inj in H as [_ ?]; [lia|done..|lia|lia].
Qed.

(** The fields of position [i+1] hold what the loop computed for the
    event at index [i] of the list it was handed. *)
Lemma assemble_lookup (result : list event) (i : nat) ev :
  result !! i = Some ev → (i < 5)%nat →
  assemble c result !! field "Adverse_Event_Terms" (S i)
    = r_term <$> resolve_event c ev ∧
  assemble c result !! field "Side_Effect_Severity" (S i)
    = r_severity <$> resolve_event c ev ∧
  assemble c result !! field "Side_Effect_Seriousness" (S i)
    = r_seriousness <$> resolve_event c ev.
Proof.
  intros Hi Hlt. unfold assemble.
  assert (take 5 result !! i = Some ev) as Ht by (by rewrite lookup_take_lt).
  pose proof (run_lookup (take 5 result) 1 ∅ i ev ltac:(lia)) as H.
  rewrite length_take in H. specialize (H ltac:(lia) Ht). simpl in H.
  destruct (resolve_event c ev) as [r|]; [done|].
  rewrite !H by auto using terms_name, severity_name, seriousness_name.
  by rewrite !lookup_empty.
Qed.

Lemma assemble_beyond (result : list event) (i : nat) (n : string) :
  (length result ≤ i)%nat → (i < 5)%nat → n ∈ field_names →
  assemble c result !! field n (S i) = None.
Proof.
  intros Hlen Hlt Hn. unfold assemble. rewrite run_other; [done|].
  intros n' j Hn' Hj H. rewrite length_take in Hj.
  apply field_inj in H as [_ ?]; [lia|done..|lia|lia].
Qed.

End Fields.

(** ** The duplicate filter *)

Section Dedupe.

Lemma fold_dedupe_step l acc seen :
  (fold_left dedupe_step l (acc, seen)).1 = (acc ++ kept_from seen l)%list.
Proof.
  revert acc seen. induction l as [|oe l IH]; intros acc seen.
  - by rewrite app_nil_r.
  - cbn [fold_left kept_from]. unfold dedupe_step at 2.
    fold (to_event oe). change (strip (default "" (o_Term oe))) with (Term (to_event oe)).
    destruct (is_empty (Term (to_event oe))); [apply IH|].
    change (strip (lower (Term (to_event oe)))) with (term_key (to_event oe)).
    destruct (decide (term_key (to_event oe) ∈ seen)); [apply IH|].
    rewrite IH, <- app_assoc. done.
Qed.

Lemma collect_events_kept l : collect_events l = kept_from ∅ l.
Proof. unfold collect_events. by rewrite fold_dedupe_step. Qed.

Lemma to_event_term_strip oe : strip (Term (to_event oe)) = Term (to_event oe).
Proof. apply strip_idemp. Qed.

Lemma term_key_nonempty oe : Term (to_event oe) ≠ "" → term_key (to_event oe) ≠ "".
Proof.
  intros H E. apply H. apply strip_lower_nil in E.
  by rewrite to_event_term_strip in E.
Qed.

Lemma term_key_lower oe : term_key (to_event oe) = lower (Term (to_event oe)).
Proof. unfold term_key. by rewrite <- lower_strip, to_event_term_strip. Qed.

Lemma kept_from_sublist seen l : sublist (kept_from seen l) (to_event <$> l).
Proof.
  revert seen. induction l as [|oe l IH]; intros seen; [done|].
  cbn [kept_from fmap list_fmap].
  destruct (is_empty _); [by apply sublist_cons|].
  destruct (decide _); [by apply sublist_cons|]. by apply sublist_skip.
Qed.

(** Every kept event comes from an entry of the list, has a term that is
    not empty and a key that had not been met. *)
Lemma kept_from_elem seen l ev :
  ev ∈ kept_from seen l →
  (∃ oe, oe ∈ l ∧ ev = to_event oe) ∧ Term ev ≠ "" ∧ term_key ev ∉ seen.
Proof.
  revert seen. induction l as [|oe l IH]; intros seen; [by intros ?%elem_of_nil|].
  cbn [kept_from].
  destruct (is_empty (Term (to_event oe))) eqn:E.
  { intros (( oe' & ? & ?) & ? & ?)%IH. repeat split; [|done..].
    exists oe'. split; [by apply elem_of_cons; right|done]. }
  destruct (decide (term_key (to_event oe) ∈ seen)) as [Hs|Hs].
  { intros (( oe' & ? & ?) & ? & ?)%IH. repeat split; [|done..].
    exists oe'. split; [by apply elem_of_cons; right|done]. }
  intros [->|H]%elem_of_cons.
  - repeat split; [|by intros ?%is_empty_true; congruence|done].
    exists oe. split; [by apply elem_of_cons; left|done].
  - apply IH in H as (( oe' & ? & ?) & ? & Hk).
    repeat split; [|done|by intros ?; apply Hk, elem_of_union; right].
    exists oe'. split; [by apply elem_of_cons; right|done].
Qed.

Lemma kept_from_NoDup seen l : NoDup (term_key <$> kept_from seen l).
Proof.
  revert seen. induction l as [|oe l IH]; intros seen; [constructor|].
  cbn [kept_from].
  destruct (is_empty _); [apply IH|]. destruct (decide _); [apply IH|].
  cbn [fmap list_fmap]. constructor; [|apply IH].
  intros (ev & Hk & Hin)%list_elem_of_fmap.
  apply kept_from_elem in Hin as (_ & _ & Hnot). set_solver.
Qed.

(** The kept event is the first entry of the list with its key. *)
Lemma kept_from_first seen l ev :
  ev ∈ kept_from seen l →
  ∃ l1 oe l2, l = (l1 ++ oe :: l2)%list ∧ ev = to_event oe ∧
              ∀ oe', oe' ∈ l1 → term_key (to_event oe') ≠ term_key ev.
Proof.
  revert seen. induction l as [|oe l IH]; intros seen; [by intros ?%elem_of_nil|].
  cbn [kept_from].
  destruct (is_empty (Term (to_event oe))) eqn:E.
  { intros Hin. pose proof (kept_from_elem _ _ _ Hin) as ((oe1 & _ & ->) & Hne & _).
    apply IH in Hin as (l1 & oe' & l2 & -> & Heq & Hfirst).
    exists (oe :: l1), oe', l2. repeat split; [done|].
    intros x [->|Hx]%elem_of_cons; [|by apply Hfirst].
    apply is_empty_true in E. unfold term_key at 1. rewrite E.
    intros Hk. symmetry in Hk. by apply term_key_nonempty in Hk. }
  destruct (decide (term_key (to_event oe) ∈ seen)) as [Hs|Hs].
  { intros Hin. pose proof (kept_from_elem _ _ _ Hin) as (_ & _ & Hnot).
    apply IH in Hin as (l1 & oe' & l2 & -> & Heq & Hfirst).
    exists (oe :: l1), oe', l2. repeat split; [done|].
    intros x [->|Hx]%elem_of_cons; [|by apply Hfirst]. congruence. }
  intros [->|Hin]%elem_of_cons.
  - exists [], oe, l. repeat split. by intros ? ?%elem_of_nil.
  - pose proof (kept_from_elem _ _ _ Hin) as (_ & _ & Hnot).
    apply IH in Hin as (l1 & oe' & l2 & -> & Heq & Hfirst).
    exists (oe :: l1), oe', l2. repeat split; [done|].
    intros x [->|Hx]%elem_of_cons; [|by apply Hfirst]. set_solver.
Qed.

End Dedupe.

(** ** What reaches the response loop *)

Section Extracted.

Context (json_loads py_eval : string → option parsed).
Context (call_diagnostic_ollama : string → string).
Context (call_ollama : string → result string).

Lemma diagnosed_events_nonempty dc ev :
  strip dc ≠ "" → ev ∈ diagnosed_events dc → strip (Term ev) ≠ "".
Proof.
  intros Hdc. unfold diagnosed_events. destruct (contains "," dc).
  - intros (cond & -> & (raw & -> & Hraw)%list_elem_of_fmap)%list_elem_of_fmap.
    cbn [Term]. rewrite strip_idemp.
    apply list_elem_of_In, filter_In in Hraw as [_ Hraw].
    apply negb_true_iff in Hraw. intros E. apply is_empty_true in E. congruence.
  - intros ->%list_elem_of_singleton. cbn [Term]. by rewrite strip_idemp.
Qed.



End Extracted.





(** ** Severities outside the list *)

Lemma seriousness_of_unlisted severity :
  severity ∉ severity_priority → seriousness_of severity = "Non-Serious".
Proof.
  intros H. unfold seriousness_of. rewrite bool_decide_eq_false_2; [done|].
  intros Hin. apply H. eapply elem_of_sublist; [exact Hin|apply sublist_take].
Qed.

(** C10, as the code has it. A severity of the oracle that is none of the
    seven values and is not a placeholder (empty, blank or "To be
    determined"), given for a candidate that is not a diagnosis and matches
    no corpus, is written unchanged to the severity field of the event's
    position, and the seriousness field of that position is "Non-Serious". *)
Theorem C10_unlisted_severity_is_non_serious :
  ∀ c (result : list event) (i : nat) ev,
    result !! i = Some ev → (i < 5)%nat →
    Is_Diagnosis ev = false →
    strip (Term ev) ≠ "" →
    tier_match (significant_disability_terms c) (Term ev) = false →
    tier_match (congenital_anomaly_terms c) (Term ev) = false →
    tier_match (medically_significant_terms c) (Term ev) = false →
    is_placeholder (Severity ev) = false →
    Severity ev ∉ severity_priority →
    assemble c result !! field "Side_Effect_Severity" (S i) = Some (Severity ev) ∧
    assemble c result !! field "Side_Effect_Seriousness" (S i) = Some "Non-Serious".
Proof.
  intros c result i ev Hev Hi _ Hne Hsd Hca Hms Hph Hout.
  destruct (assemble_lookup c result i ev Hev Hi) as (_ & -> & ->).
  unfold resolve_event. rewrite is_empty_false, Hph by done.
  rewrite check_csv_severity_cases, !tier_match_strip, Hsd, Hca, Hms.
  cbn. by rewrite seriousness_of_unlisted.
Qed.

Lemma C10_witness :
  assemble (Corpora {["hepatitis"]} {["paralysis"]} {["cleft"]})
           [Event "Nausea" "" false; Event "rash" "Severe" false]
    !! field "Side_Effect_Severity" 2 = Some "Severe" ∧
  assemble (Corpora {["hepatitis"]} {["paralysis"]} {["cleft"]})
           [Event "Nausea" "" false; Event "rash" "Severe" false]
    !! field "Side_Effect_Seriousness" 2 = Some "Non-Serious".
Proof.
  apply (C10_unlisted_severity_is_non_serious
           (Corpora {["hepatitis"]} {["paralysis"]} {["cleft"]})
           [Event "Nausea" "" false; Event "rash" "Severe" false]
           1 (Event "rash" "Severe" false)).
  - reflexivity.
  - lia.
  - reflexivity.
  - vm_compute. discriminate.
  - vm_compute. reflexivity.
  - vm_compute. reflexivity.
  - vm_compute. reflexivity.
  - vm_compute. reflexivity.
  - apply (bool_decide_unpack _). vm_compute. exact I.
Defined.

(** C10, as the claim has it, fails: "To be determined" is not empty and
    is none of the seven values, and the response carries "None of the
    above" in its place. *)
Lemma C10_placeholder_not_verbatim :
  let c := Corpora ∅ ∅ ∅ in
  let ev := Event "rash" "To be determined" false in
  Severity ev ≠ "" ∧ (Severity ev ∉ severity_priority) ∧
  Is_Diagnosis ev = false ∧ check_csv_severity (Term ev) c = None ∧
  assemble c [ev] !! "Side_Effect_Severity" = Some "None of the above" ∧
  assemble c [ev] !! "Side_Effect_Severity" ≠ Some (Severity ev).
Proof.
  repeat split; try (vm_compute; done).
  apply (bool_decide_unpack _). vm_compute. exact I.
Qed.

(** ** Replies that no strategy can parse *)

Section Unparseable.

Lemma field_not_error (n : string) (i : nat) : n ∈ field_names → "error" ≠ field n i.
Proof.
  unfold field_names. intros Hn.
  repeat (apply elem_of_cons in Hn as [->|Hn]);
    [..|by apply elem_of_nil in Hn];
    unfold field; case_decide; lazy [String.append]; discriminate.
Qed.

End Unparseable.

(** C8. When the diagnosis call yields nothing and the reply of the event
    call is parsed by none of the three strategies (the strict parse, the
    parse of the text between the first opening and the last closing brace,
    the literal evaluation), extraction raises the parse error, the request
    ends with status 400 and a body that holds the error message and none
    of the event fields. No empty event list stands in for the reply. *)
Theorem C8_unparseable_reply_fails_the_request :
  ∀ json_loads py_eval call_diagnostic_ollama call_ollama c data_text reply,
    let text := strip (default "" data_text) in
    let cleaned := strip (remove_fences (strip reply)) in
    let parse_error := "Could not parse JSON after trying multiple strategies" in
    text ≠ "" →
    strip (call_diagnostic_ollama text) = "" →
    call_ollama text = Ok reply →
    json_loads cleaned = None →
    (g ← brace_search cleaned; json_loads g) = None →
    py_eval cleaned = None →
    extract_medical_information json_loads py_eval call_diagnostic_ollama
                                call_ollama text
      = Raise (ValueError parse_error) ∧
    analyze_text json_loads py_eval call_diagnostic_ollama call_ollama c
                 (Json data_text)
      = ({[ "error" := parse_error ]}, 400) ∧
    ∀ (n : string) (i : nat), n ∈ field_names →
      (analyze_text json_loads py_eval call_diagnostic_ollama call_ollama c
                    (Json data_text)).1 !! field n i = None.
Proof.
  intros json_loads py_eval diag ollama c data_text reply text cleaned parse_error
         Htext Hdiag Hreply H1 H2 H3.
  assert (extract_medical_information json_loads py_eval diag ollama text
          = Raise (ValueError parse_error)) as Hex.
  { unfold extract_medical_information.
    rewrite Hdiag. rewrite andb_false_r. rewrite Hreply.
    unfold mbind at 1, result_bind at 1.
    unfold safe_json_loads, parsing_strategies, try_strategies.
    fold cleaned. by rewrite H1, H2, H3. }
  assert (analyze_text json_loads py_eval diag ollama c (Json data_text)
          = ({[ "error" := parse_error ]}, 400)) as Han.
  { unfold analyze_text. fold text. by rewrite is_empty_false, Hex. }
  repeat split; [done..|].
  intros n i Hn. rewrite Han. cbn [fst].
  apply lookup_singleton_ne. by apply field_not_error.
Qed.

Lemma C8_witness :
  let json_loads := (λ s : string, if decide (s = "{}") then Some (Dict None) else None) in
  let py_eval := (λ _ : string, @None parsed) in
  let call_diagnostic_ollama := (λ _ : string, "  ") in
  let call_ollama := (λ _ : string, Ok "```json I could not find any adverse event ```") in
  let c := Corpora ∅ ∅ ∅ in
  let parse_error := "Could not parse JSON after trying multiple strategies" in
  extract_medical_information json_loads py_eval call_diagnostic_ollama
                              call_ollama "Patient felt dizzy"
    = Raise (ValueError parse_error) ∧
  analyze_text json_loads py_eval call_diagnostic_ollama call_ollama c
               (Json (Some " Patient felt dizzy "))
    = ({[ "error" := parse_error ]}, 400) ∧
  ∀ (n : string) (i : nat), n ∈ field_names →
    (analyze_text json_loads py_eval call_diagnostic_ollama call_ollama c
                  (Json (Some " Patient felt dizzy "))).1 !! field n i = None.
Proof.
  intros json_loads py_eval call_diagnostic_ollama call_ollama c parse_error.
  apply (C8_unparseable_reply_fails_the_request
           json_loads py_eval call_diagnostic_ollama call_ollama c
           (Some " Patient felt dizzy ")
           "```json I could not find any adverse event ```").
  - vm_compute. discriminate.
  - vm_compute. reflexivity.
  - reflexivity.
  - vm_compute. reflexivity.
  - vm_compute. reflexivity.
  - reflexivity.
Defined.

(** * Further properties of the code *)

(** ** The corpora as the loader leaves them *)

Section LoadedCorpora.

Lemma lower_ascii_idemp c : lower_ascii (lower_ascii c) = lower_ascii c.
Proof. destruct c as [[] [] [] [] [] [] [] []]; vm_compute; reflexivity. Qed.

Lemma lower_idemp s : lower (lower s) = lower s.
Proof.
  induction s as [|c s IH]; [done|].
  cbn [lower]. by rewrite lower_ascii_idemp, IH.
Qed.

Lemma startswith_refl s : startswith s s = true.
Proof. induction s as [|c s IH]; [done|]. cbn [startswith]. by rewrite decide_True. Qed.

Lemma contains_refl s : contains s s = true.
Proof. destruct s; [done|]. by rewrite contains_unfold, startswith_refl. Qed.

Lemma load_terms_rows col terms :
  load_terms (Rows col) = Ok terms →
  ∀ e, e ∈ terms ↔ ∃ raw, raw ∈ col ∧ e = strip (lower raw).
Proof.
  intros [= <-] e. rewrite elem_of_list_to_set, list_elem_of_fmap.
  split; intros (raw & H1 & H2); exists raw; by split.
Qed.

(** A blank cell puts the empty string in the set, and the empty string
    occurs in every term. *)
Lemma blank_cell_matches_all col terms raw ae_term :
  load_terms (Rows col) = Ok terms →
  raw ∈ col → strip raw = "" →
  tier_match terms ae_term = true.
Proof.
  intros Hload Hraw Hblank. apply tier_match_true. exists "". split.
  - apply (load_terms_rows _ _ Hload). exists raw. split; [done|].
    by rewrite <- lower_strip, Hblank.
  - by apply contains_nil.
Qed.

Lemma check_csv_severity_listed ae_term c s :
  check_csv_severity ae_term c = Some s →
  s ∈ take (length severity_priority - 1) severity_priority.
Proof.
  rewrite check_csv_severity_cases.
  repeat case_match; intros [= <-]; apply (bool_decide_unpack _); by vm_compute.
Qed.

End LoadedCorpora.

(** X1. Every entry of a loaded corpus is in lower case and trimmed, and
    the set holds exactly the lowercased, trimmed cells of the first
    column. *)
Theorem X1_loaded_entries_are_normalised :
  ∀ col terms,
    load_terms (Rows col) = Ok terms →
    (∀ raw, raw ∈ col → strip (lower raw) ∈ terms) ∧
    (∀ e, e ∈ terms →
       lower e = e ∧ strip e = e ∧ ∃ raw, raw ∈ col ∧ e = strip (lower raw)).
Proof.
  intros col terms Hload. split.
  - intros raw Hraw. apply (load_terms_rows _ _ Hload). eauto.
  - intros e He. pose proof He as (raw & Hraw & ->)%(load_terms_rows _ _ Hload).
    repeat split; [|apply strip_idemp|eauto].
    by rewrite lower_strip, lower_idemp.
Qed.

Lemma X1_witness :
  (∀ raw, raw ∈ [" Paralysis "; "COMA"] →
     strip (lower raw) ∈ (list_to_set ["paralysis"; "coma"] : gset string)) ∧
  (∀ e, e ∈ (list_to_set ["paralysis"; "coma"] : gset string) →
     lower e = e ∧ strip e = e ∧
     ∃ raw, raw ∈ [" Paralysis "; "COMA"] ∧ e = strip (lower raw)).
Proof.
  apply (X1_loaded_entries_are_normalised [" Paralysis "; "COMA"]).
  vm_compute. reflexivity.
Defined.

(** X2. A term that equals a cell of the corpus file up to letter case and
    surrounding white space matches the loaded corpus. *)
Theorem X2_row_matches_itself :
  ∀ col terms raw ae_term,
    load_terms (Rows col) = Ok terms →
    raw ∈ col →
    strip (lower ae_term) = strip (lower raw) →
    tier_match terms ae_term = true.
Proof.
  intros col terms raw ae_term Hload Hraw Heq.
  apply tier_match_true. exists (strip (lower raw)). split.
  - apply (load_terms_rows _ _ Hload). eauto.
  - rewrite Heq. apply contains_refl.
Qed.

Lemma X2_witness :
  tier_match (list_to_set ["hepatitis"; "renal failure"]) "  Renal FAILURE " = true.
Proof.
  apply (X2_row_matches_itself ["Hepatitis"; " Renal failure"] _ " Renal failure").
  - vm_compute. reflexivity.
  - apply (bool_decide_unpack _). vm_compute. exact I.
  - vm_compute. reflexivity.
Defined.

(** X3. A blank cell in the first column of any of the three corpus files
    makes every term match that corpus, so that every event with a term is
    reported as "Serious", whatever the oracle said. *)
Theorem X3_blank_cell_makes_every_event_serious :
  ∀ ms sd ca c col raw ev,
    load_ae_terms_from_csv ms sd ca = Ok c →
    ms = Rows col ∨ sd = Rows col ∨ ca = Rows col →
    raw ∈ col → strip raw = "" →
    strip (Term ev) ≠ "" →
    ∃ r, resolve_event c ev = Some r ∧ r_seriousness r = "Serious".
Proof.
  intros ms sd ca c col raw ev Hload Hsrc Hraw Hblank Hne.
  apply load_ae_terms_inv in Hload as (Hms & Hsd & Hca).
  destruct (resolve_event_nonempty c ev Hne) as [ai ->].
  eexists; split; [done|]. cbn [r_seriousness].
  assert (∃ s, check_csv_severity (strip (Term ev)) c = Some s) as [s Hs].
  { rewrite check_csv_severity_cases.
    destruct Hsrc as [->|[->| ->]].
    - rewrite (blank_cell_matches_all _ _ _ _ Hms Hraw Hblank). repeat case_match; eauto.
    - rewrite (blank_cell_matches_all _ _ _ _ Hsd Hraw Hblank). eauto.
    - rewrite (blank_cell_matches_all _ _ _ _ Hca Hraw Hblank). repeat case_match; eauto. }
  rewrite Hs. cbn [default]. unfold seriousness_of.
  rewrite bool_decide_eq_true_2; [done|]. by eapply check_csv_severity_listed.
Qed.

Lemma X3_witness :
  ∃ r, resolve_event
         (Corpora (list_to_set ((λ term, strip (lower term)) <$> ["Hepatitis"; "  "])) ∅ ∅)
         (Event "mild headache" "None of the above" false) = Some r ∧
       r_seriousness r = "Serious".
Proof.
  apply (X3_blank_cell_makes_every_event_serious
           (Rows ["Hepatitis"; "  "]) Missing Missing _ ["Hepatitis"; "  "] "  ").
  - reflexivity.
  - left. reflexivity.
  - apply (bool_decide_unpack _). vm_compute. exact I.
  - vm_compute. reflexivity.
  - vm_compute. discriminate.
Defined.

(** X4. What the loop computes for an event (whether it is skipped, its
    severity and its seriousness) depends on the term only up to letter case
    and surrounding white space. *)
Theorem X4_resolution_ignores_case :
  ∀ c ev1 ev2,
    strip (lower (Term ev1)) = strip (lower (Term ev2)) →
    Severity ev1 = Severity ev2 →
    Is_Diagnosis ev1 = Is_Diagnosis ev2 →
    r_severity <$> resolve_event c ev1 = r_severity <$> resolve_event c ev2 ∧
    r_seriousness <$> resolve_event c ev1 = r_seriousness <$> resolve_event c ev2.
Proof.
  intros c ev1 ev2 Hterm Hsev Hdiag. unfold resolve_event.
  assert (is_empty (strip (Term ev1)) = is_empty (strip (Term ev2))) as ->.
  { destruct (decide (strip (Term ev2) = "")) as [E|E].
    - rewrite E. apply is_empty_true. apply strip_lower_nil.
      by rewrite Hterm, <- lower_strip, E.
    - rewrite !is_empty_false; [done..|].
      intros E1. apply E. apply strip_lower_nil.
      by rewrite <- Hterm, <- lower_strip, E1. }
  destruct (is_empty (strip (Term ev2))); [done|].
  cbn [fmap option_fmap option_map r_severity r_seriousness].
  unfold check_csv_severity, determine_adr_severity_for_diagnosed.
  rewrite !strip_lower_strip, Hterm, Hsev, Hdiag. done.
Qed.

Lemma X4_witness :
  r_severity <$> resolve_event (Corpora ∅ ∅ ∅)
                   (Event " HOSPITAL Admission" "To be determined" true)
  = r_severity <$> resolve_event (Corpora ∅ ∅ ∅)
                     (Event "hospital admission " "To be determined" true) ∧
  r_seriousness <$> resolve_event (Corpora ∅ ∅ ∅)
                      (Event " HOSPITAL Admission" "To be determined" true)
  = r_seriousness <$> resolve_event (Corpora ∅ ∅ ∅)
                        (Event "hospital admission " "To be determined" true).
Proof.
  apply (X4_resolution_ignores_case (Corpora ∅ ∅ ∅)
           (Event " HOSPITAL Admission" "To be determined" true)
           (Event "hospital admission " "To be determined" true)).
  - vm_compute. reflexivity.
  - reflexivity.
  - reflexivity.
Defined.

(** ** The severity of a diagnosed condition *)

Section Diagnosed.

Lemma check_csv_severity_strip ae_term c :
  check_csv_severity (strip ae_term) c = check_csv_severity ae_term c.
Proof. by rewrite !check_csv_severity_cases, !tier_match_strip. Qed.



Lemma first_rule_listed rules s :
  Forall (λ rule, rule.2 ∈ severity_priority) rules →
  first_rule rules s ∈ severity_priority.
Proof.
  induction 1 as [|[keywords severity] rules Hin _ IH]; cbn [first_rule].
  - apply (bool_decide_unpack _). by vm_compute.
  - by destruct (any_in keywords s).
Qed.

Lemma determine_listed ae_term c :
  determine_adr_severity_for_diagnosed ae_term c ∈ severity_priority.
Proof.
  apply first_rule_listed. unfold severity_rules.
  repeat constructor; apply (bool_decide_unpack _); by vm_compute.
Qed.

Lemma resolve_event_diagnosis c ev :
  Is_Diagnosis ev = true → is_placeholder (Severity ev) = true →
  strip (Term ev) ≠ "" →
  resolve_event c ev =
    let final_severity :=
      default (determine_adr_severity_for_diagnosed (Term ev) c)
              (check_csv_severity (Term ev) c) in
    Some (Resolved (strip (Term ev)) final_severity (seriousness_of final_severity)).
Proof.
  intros Hdiag Hph Hne. unfold resolve_event.
  rewrite is_empty_false, Hph, Hdiag, check_csv_severity_strip by done.
  unfold determine_adr_severity_for_diagnosed. by rewrite strip_lower_strip.
Qed.

End Diagnosed.



(** X6. The keyword "ER visit" has no effect on any term and any corpora:
    the severity of a diagnosed condition is the one the rules give with
    that keyword removed. *)
Theorem X6_er_visit_keyword_has_no_effect :
  ∀ ae_term c,
    determine_adr_severity_for_diagnosed ae_term c
    = first_rule (severity_rules_without_er_visit c) (strip (lower ae_term)).
Proof.
  intros ae_term c.
  unfold determine_adr_severity_for_diagnosed, severity_rules,
    severity_rules_without_er_visit.
  cbn [first_rule any_in existsb].
  by rewrite er_visit_keyword_never_matches, !orb_false_r.
Qed.

(** X7. A diagnosed condition that matches no corpus and mentions one of
    the fatal keywords is "Fatal or death" and "Serious", whatever else the
    term mentions. *)
Theorem X7_fatal_keyword_wins :
  ∀ c ev keyword,
    Is_Diagnosis ev = true →
    is_placeholder (Severity ev) = true →
    check_csv_severity (Term ev) c = None →
    keyword ∈ fatal_keywords →
    contains keyword (strip (lower (Term ev))) = true →
    resolve_event c ev = Some (Resolved (strip (Term ev)) "Fatal or death" "Serious").
Proof.
  intros c ev keyword Hdiag Hph Hcsv Hkw Hsub.
  assert (strip (Term ev) ≠ "") as Hne.
  { intros E. rewrite <- lower_strip, E in Hsub.
    apply contains_in_nil in Hsub as ->.
    revert Hkw. apply (bool_decide_unpack _). by vm_compute. }
  rewrite resolve_event_diagnosis, Hcsv by done. cbn [default].
  assert (determine_adr_severity_for_diagnosed (Term ev) c = "Fatal or death") as ->.
  { unfold determine_adr_severity_for_diagnosed, severity_rules. cbn [first_rule].
    assert (any_in fatal_keywords (strip (lower (Term ev))) = true) as Hany
      by (apply any_in_true; eauto).
    unfold fatal_keywords in Hany. by rewrite Hany. }
  done.
Qed.

Lemma X7_witness :
  resolve_event (Corpora {["hepatitis"]} ∅ ∅)
    (Event "Cardiac arrest, died in hospital" "To be determined" true)
  = Some (Resolved (strip "Cardiac arrest, died in hospital") "Fatal or death" "Serious").
Proof.
  apply (X7_fatal_keyword_wins (Corpora {["hepatitis"]} ∅ ∅)
           (Event "Cardiac arrest, died in hospital" "To be determined" true) "died").
  - reflexivity.
  - vm_compute. reflexivity.
  - vm_compute. reflexivity.
  - apply (bool_decide_unpack _). vm_compute. exact I.
  - vm_compute. reflexivity.
Defined.

(** X8. Whatever the loop computes for an event: the term is the trimmed
    term and is not empty; the severity is one of the seven values or the
    oracle's own string, the latter only when that string is no
    placeholder; the seriousness is the one of that severity, "Serious" or
    "Non-Serious". When the event carries a placeholder, as every diagnosed
    condition does, the severity is one of the seven values. *)
Theorem X8_resolved_record_invariant :
  ∀ c ev r,
    resolve_event c ev = Some r →
    r_term r = strip (Term ev) ∧ r_term r ≠ "" ∧
    (r_severity r ∈ severity_priority ∨
     (is_placeholder (Severity ev) = false ∧ r_severity r = Severity ev)) ∧
    (is_placeholder (Severity ev) = true → r_severity r ∈ severity_priority) ∧
    r_seriousness r = seriousness_of (r_severity r) ∧
    (r_seriousness r = "Serious" ∨ r_seriousness r = "Non-Serious").
Proof.
  intros c ev r. unfold resolve_event.
  destruct (is_empty (strip (Term ev))) eqn:E; [done|]. intros [= <-].
  cbn [r_term r_severity r_seriousness].
  assert (∀ s, check_csv_severity (strip (Term ev)) c = Some s → s ∈ severity_priority)
    as Hcsv.
  { intros s Hs%check_csv_severity_listed.
    eapply elem_of_sublist; [exact Hs|apply sublist_take]. }
  assert ("None of the above" ∈ severity_priority) as Hnone
    by (apply (bool_decide_unpack _); by vm_compute).
  repeat split.
  - intros H. apply is_empty_true in H. congruence.
  - destruct (check_csv_severity (strip (Term ev)) c) as [s|] eqn:Hs; cbn [default].
    { left. by apply Hcsv. }
    destruct (is_placeholder (Severity ev)) eqn:Hph; [left|by right].
    destruct (Is_Diagnosis ev); [apply determine_listed|done].
  - intros Hph.
    destruct (check_csv_severity (strip (Term ev)) c) as [s|] eqn:Hs; cbn [default].
    { by apply Hcsv. }
    rewrite Hph. destruct (Is_Diagnosis ev); [apply determine_listed|done].
  - unfold seriousness_of. case_bool_decide; auto.
Qed.

Lemma X8_witness :
  let r := Resolved "rash" "Severe" "Non-Serious" in
  let ev := Event " rash" "Severe" false in
  r_term r = strip (Term ev) ∧ r_term r ≠ "" ∧
  (r_severity r ∈ severity_priority ∨
   (is_placeholder (Severity ev) = false ∧ r_severity r = Severity ev)) ∧
  (is_placeholder (Severity ev) = true → r_severity r ∈ severity_priority) ∧
  r_seriousness r = seriousness_of (r_severity r) ∧
  (r_seriousness r = "Serious" ∨ r_seriousness r = "Non-Serious").
Proof.
  apply (X8_resolved_record_invariant (Corpora ∅ ∅ ∅) (Event " rash" "Severe" false)).
  vm_compute. reflexivity.
Defined.

(** ** The shape of the response *)

Section ResponseShape.

Context (c : corpora).

Local Arguments analyze_step : simpl never.
Local Arguments field : simpl never.

Lemma resolve_event_some ev r :
  resolve_event c ev = Some r →
  strip (Term ev) ≠ "" ∧ r_term r = strip (Term ev) ∧
  r_seriousness r = seriousness_of (r_severity r).
Proof.
  unfold resolve_event. destruct (is_empty (strip (Term ev))) eqn:E; [done|].
  intros [= <-]. repeat split. intros H. apply is_empty_true in H. congruence.
Qed.

Lemma analyze_step_keys (m : gmap string string) (i : nat) ev (key : string) :
  is_Some (analyze_step c m (i, ev) !! key) →
  is_Some (m !! key) ∨
  ∃ n, n ∈ field_names ∧ strip (Term ev) ≠ "" ∧ key = field n i.
Proof.
  unfold analyze_step. destruct (resolve_event c ev) as [r|] eqn:Hr; [|by left].
  apply resolve_event_some in Hr as (Hne & _).
  rewrite !lookup_insert. repeat case_decide; subst; eauto 6 using
    terms_name, severity_name, seriousness_name.
Qed.

Lemma run_keys l (k : nat) (m : gmap string string) (key : string) :
  is_Some (fold_left (analyze_step c) (enumerate k l) m !! key) →
  is_Some (m !! key) ∨
  ∃ n (i : nat) ev, n ∈ field_names ∧ l !! i = Some ev ∧
                    strip (Term ev) ≠ "" ∧ key = field n (k + i).
Proof.
  revert k m. induction l as [|ev l IH]; intros k m; [by left|].
  cbn [enumerate fold_left]. intros [H|(n & i & ev' & Hn & Hi & Hne & ->)]%IH.
  - apply analyze_step_keys in H as [H|(n & Hn & Hne & ->)]; [by left|].
    right. exists n, 0, ev. rewrite Nat.add_0_r. done.
  - right. exists n, (S i), ev'. replace (k + S i) with (S k + i) by lia. done.
Qed.

End ResponseShape.

(** X9. Every key of a response built by the loop is one of the three
    field names at one of the positions 1 to 5, written for the record at
    that position, whose term is not blank; in particular the body of a
    successful response has no "error" key. *)
Theorem X9_response_keys :
  ∀ c (result : list event) (key : string),
    is_Some (assemble c result !! key) →
    key ≠ "error" ∧
    ∃ n (i : nat) ev,
      n ∈ field_names ∧ (i < 5)%nat ∧ result !! i = Some ev ∧
      strip (Term ev) ≠ "" ∧ key = field n (S i).
Proof.
  intros c result key H. unfold assemble in H.
  apply run_keys in H as [H|(n & i & ev & Hn & Hi & Hne & ->)].
  { rewrite lookup_empty in H. by destruct H. }
  apply lookup_take_Some in Hi as [Hi Hlt]. split.
  - intros E. symmetry in E. by apply field_not_error in E.
  - exists n, i, ev. done.
Qed.

Lemma X9_witness :
  "Side_Effect_Severity2" ≠ "error" ∧
  ∃ n (i : nat) ev,
    n ∈ field_names ∧ (i < 5)%nat ∧
    [Event "Nausea" "" false; Event "rash" "Severe" false] !! i = Some ev ∧
    strip (Term ev) ≠ "" ∧ "Side_Effect_Severity2" = field n (S i).
Proof.
  apply (X9_response_keys (Corpora ∅ ∅ ∅)
           [Event "Nausea" "" false; Event "rash" "Severe" false]
           "Side_Effect_Severity2").
  vm_compute. eauto.
Defined.

(** X10. At each of the five positions the three fields are written
    together or not at all; a written term is trimmed and not empty, and a
    written seriousness is the one that belongs to the severity written
    beside it. *)
Theorem X10_fields_come_in_consistent_triples :
  ∀ c (result : list event) (i : nat),
    (i < 5)%nat →
    (assemble c result !! field "Adverse_Event_Terms" (S i) = None ∧
     assemble c result !! field "Side_Effect_Severity" (S i) = None ∧
     assemble c result !! field "Side_Effect_Seriousness" (S i) = None) ∨
    (∃ term severity,
       assemble c result !! field "Adverse_Event_Terms" (S i) = Some term ∧
       assemble c result !! field "Side_Effect_Severity" (S i) = Some severity ∧
       assemble c result !! field "Side_Effect_Seriousness" (S i)
         = Some (seriousness_of severity) ∧
       term ≠ "" ∧ strip term = term).
Proof.
  intros c result i Hi.
  destruct (result !! i) as [ev|] eqn:Hev.
  - destruct (assemble_lookup c result i ev Hev Hi) as (-> & -> & ->).
    destruct (resolve_event c ev) as [r|] eqn:Hr; [|by left].
    apply resolve_event_some in Hr as (Hne & Ht & Hs).
    right. exists (r_term r), (r_severity r). cbn. rewrite Hs, Ht.
    repeat split; [done|apply strip_idemp].
  - left. apply lookup_ge_None in Hev.
    repeat split; apply assemble_beyond;
      auto using terms_name, severity_name, seriousness_name.
Qed.

Lemma X10_witness :
  let c := Corpora ∅ ∅ ∅ in
  let result := [Event "Nausea" "" false; Event "rash" "Severe" false] in
  (assemble c result !! field "Adverse_Event_Terms" 2 = None ∧
   assemble c result !! field "Side_Effect_Severity" 2 = None ∧
   assemble c result !! field "Side_Effect_Seriousness" 2 = None) ∨
  (∃ term severity,
     assemble c result !! field "Adverse_Event_Terms" 2 = Some term ∧
     assemble c result !! field "Side_Effect_Severity" 2 = Some severity ∧
     assemble c result !! field "Side_Effect_Seriousness" 2
       = Some (seriousness_of severity) ∧
     term ≠ "" ∧ strip term = term).
Proof.
  apply (X10_fields_come_in_consistent_triples (Corpora ∅ ∅ ∅)
           [Event "Nausea" "" false; Event "rash" "Severe" false] 1).
  lia.
Defined.

(** ** The calls to the service *)

Section ServiceCalls.

Lemma call_ollama_from_step post (attempt remaining : nat) :
  call_ollama_from post attempt (S remaining) =
    match usable (post attempt) with
    | Some response_text => Ok response_text
    | None => call_ollama_from post (S attempt) remaining
    end.
Proof.
  cbn [call_ollama_from]. unfold usable.
  destruct (post attempt) as [|status_code response_text]; [done|].
  destruct (decide (status_code = 200)); [|done].
  by destruct (is_empty response_text).
Qed.

Lemma usable_nonempty o response_text : usable o = Some response_text → response_text ≠ "".
Proof.
  destruct o as [|status_code t]; [done|]. cbn.
  destruct (decide _); [|done]. destruct (is_empty t) eqn:E; [done|].
  intros [= <-] ->. done.
Qed.

Lemma call_ollama_from_ok post (attempt remaining : nat) response_text :
  call_ollama_from post attempt remaining = Ok response_text ↔
  ∃ i : nat, (i < remaining)%nat ∧
    usable (post (attempt + i)) = Some response_text ∧
    ∀ j : nat, (j < i)%nat → usable (post (attempt + j)) = None.
Proof.
  revert attempt. induction remaining as [|remaining IH]; intros attempt.
  { split; [done|]. intros (i & ? & _). lia. }
  rewrite call_ollama_from_step.
  destruct (usable (post attempt)) as [t|] eqn:E.
  - split.
    + intros [= <-]. exists 0. rewrite Nat.add_0_r. repeat split; [lia|done|].
      intros j ?. lia.
    + intros (i & Hi & Hu & Hbefore). destruct i as [|i].
      * rewrite Nat.add_0_r in Hu. congruence.
      * specialize (Hbefore 0 ltac:(lia)). rewrite Nat.add_0_r in Hbefore. congruence.
  - rewrite IH. split.
    + intros (i & Hi & Hu & Hbefore). exists (S i).
      replace (attempt + S i) with (S attempt + i) by lia.
      repeat split; [lia|done|]. intros [|j] Hj.
      * by rewrite Nat.add_0_r.
      * replace (attempt + S j) with (S attempt + j) by lia. apply Hbefore. lia.
    + intros (i & Hi & Hu & Hbefore). destruct i as [|i].
      * rewrite Nat.add_0_r in Hu. congruence.
      * exists i. replace (S attempt + i) with (attempt + S i) by lia.
        repeat split; [lia|done|]. intros j Hj.
        replace (S attempt + j) with (attempt + S j) by lia. apply Hbefore. lia.
Qed.

Lemma call_ollama_from_raise post (attempt remaining : nat) e :
  call_ollama_from post attempt remaining = Raise e ↔
  e = Exception "Failed to get response from Ollama after multiple attempts" ∧
  ∀ j : nat, (j < remaining)%nat → usable (post (attempt + j)) = None.
Proof.
  revert attempt. induction remaining as [|remaining IH]; intros attempt.
  { cbn. split; [intros [= <-]; split; [done|intros; lia]|by intros [-> _]]. }
  rewrite call_ollama_from_step.
  destruct (usable (post attempt)) as [t|] eqn:E.
  - split; [done|]. intros [_ H]. specialize (H 0 ltac:(lia)).
    rewrite Nat.add_0_r in H. congruence.
  - rewrite IH. split; intros [-> H]; (split; [done|]).
    + intros [|j] Hj; [by rewrite Nat.add_0_r|].
      replace (attempt + S j) with (S attempt + j) by lia. apply H. lia.
    + intros j Hj. replace (S attempt + j) with (attempt + S j) by lia. apply H. lia.
Qed.

Context (json_loads py_eval : string → option diagnosis_reply).

Lemma call_diagnostic_ollama_from_step post (attempt remaining : nat) :
  call_diagnostic_ollama_from json_loads py_eval post attempt (S remaining) =
    match usable (post attempt) with
    | Some response_text => diagnosed_condition_of json_loads py_eval response_text
    | None => call_diagnostic_ollama_from json_loads py_eval post (S attempt) remaining
    end.
Proof.
  cbn [call_diagnostic_ollama_from]. unfold usable.
  destruct (post attempt) as [|status_code response_text]; [done|].
  destruct (decide (status_code = 200)); [|done].
  by destruct (is_empty response_text).
Qed.

Lemma call_diagnostic_ollama_from_none post (attempt remaining : nat) :
  (∀ j : nat, (j < remaining)%nat → usable (post (attempt + j)) = None) →
  call_diagnostic_ollama_from json_loads py_eval post attempt remaining = "".
Proof.
  revert attempt. induction remaining as [|remaining IH]; intros attempt H; [done|].
  rewrite call_diagnostic_ollama_from_step.
  pose proof (H 0 ltac:(lia)) as H0. rewrite Nat.add_0_r in H0. rewrite H0.
  apply IH. intros j Hj. replace (S attempt + j) with (attempt + S j) by lia.
  apply H. lia.
Qed.

Lemma call_diagnostic_ollama_from_first post (attempt remaining i : nat) response_text :
  (i < remaining)%nat →
  usable (post (attempt + i)) = Some response_text →
  (∀ j : nat, (j < i)%nat → usable (post (attempt + j)) = None) →
  call_diagnostic_ollama_from json_loads py_eval post attempt remaining
  = diagnosed_condition_of json_loads py_eval response_text.
Proof.
  revert attempt remaining. induction i as [|i IH]; intros attempt remaining Hi Hu Hb.
  - destruct remaining as [|remaining]; [lia|].
    rewrite call_diagnostic_ollama_from_step. rewrite Nat.add_0_r in Hu. by rewrite Hu.
  - destruct remaining as [|remaining]; [lia|].
    rewrite call_diagnostic_ollama_from_step.
    pose proof (Hb 0 ltac:(lia)) as H0. rewrite Nat.add_0_r in H0. rewrite H0.
    apply IH; [lia|by replace (S attempt + i) with (attempt + S i) by lia|].
    intros j Hj. replace (S attempt + j) with (attempt + S j) by lia. apply Hb. lia.
Qed.

End ServiceCalls.

(** X11. [call_ollama] returns the response text of the first attempt,
    among the [max_retries] it makes, that answers with status 200 and a
    text that is not empty; it never returns an empty text; and it raises,
    with its fixed message, exactly when no attempt answers so. *)
Theorem X11_call_ollama_first_usable_attempt :
  ∀ post (max_retries : nat),
    (∀ response_text,
       call_ollama post max_retries = Ok response_text ↔
       ∃ i : nat, (i < max_retries)%nat ∧ usable (post i) = Some response_text ∧
                  ∀ j : nat, (j < i)%nat → usable (post j) = None) ∧
    (∀ response_text,
       call_ollama post max_retries = Ok response_text → response_text ≠ "") ∧
    (∀ e,
       call_ollama post max_retries = Raise e ↔
       e = Exception "Failed to get response from Ollama after multiple attempts" ∧
       ∀ j : nat, (j < max_retries)%nat → usable (post j) = None).
Proof.
  intros post max_retries. unfold call_ollama. split; [|split].
  - intros t. exact (call_ollama_from_ok post 0 max_retries t).
  - intros t (i & _ & Hu & _)%call_ollama_from_ok. by eapply usable_nonempty.
  - intros e. exact (call_ollama_from_raise post 0 max_retries e).
Qed.

(** X12. [call_diagnostic_ollama] returns [""] when none of its attempts
    answers with status 200 and a text. Otherwise the first such answer
    decides alone, whatever the later attempts would give: when it parses to
    a dictionary with the key ["Diagnosed_Condition"] the result is the
    value of that key, and in every other case (the reply cannot be parsed,
    is not a dictionary, or lacks the key) the result is [""]. *)
Theorem X12_diagnosis_call_first_answer_decides :
  ∀ json_loads py_eval post (max_retries : nat),
    ((∀ j : nat, (j < max_retries)%nat → usable (post j) = None) →
     call_diagnostic_ollama json_loads py_eval post max_retries = "") ∧
    (∀ (i : nat) response_text,
       (i < max_retries)%nat →
       usable (post i) = Some response_text →
       (∀ j : nat, (j < i)%nat → usable (post j) = None) →
       (∀ s, safe_json_loads_at json_loads py_eval response_text
             = Ok (DiagDict (Some s)) →
             call_diagnostic_ollama json_loads py_eval post max_retries = s) ∧
       ((∀ s, safe_json_loads_at json_loads py_eval response_text
              ≠ Ok (DiagDict (Some s))) →
        call_diagnostic_ollama json_loads py_eval post max_retries = "")).
Proof.
  intros json_loads py_eval post max_retries. unfold call_diagnostic_ollama. split.
  - intros H. by apply call_diagnostic_ollama_from_none.
  - intros i t Hi Hu Hb.
    rewrite (call_diagnostic_ollama_from_first json_loads py_eval post 0 max_retries i t)
      by done.
    unfold diagnosed_condition_of. split.
    + intros s Hs. by rewrite Hs.
    + destruct (safe_json_loads_at json_loads py_eval t) as [[|[s|]]|e]; try done.
      intros H. by destruct (H s).
Qed.

Lemma X12_witness :
  let json_loads := (λ s : string,
        if decide (s = "{}") then Some (DiagDict (Some "hepatitis")) else None) in
  let py_eval := (λ _ : string, @None diagnosis_reply) in
  let post := (λ attempt : nat,
        match attempt with
        | 0 => PostRaised
        | 1 => Answered 200 "```json {} ```"
        | _ => Answered 200 "no condition found"
        end) in
  call_diagnostic_ollama json_loads py_eval post 3 = "hepatitis".
Proof.
  intros json_loads py_eval post.
  apply (proj1 (proj2 (X12_diagnosis_call_first_answer_decides json_loads py_eval post 3)
                  1 "```json {} ```"
                  ltac:(lia) ltac:(reflexivity)
                  ltac:(intros j Hj; assert (j = 0) as -> by lia; reflexivity))
           "hepatitis").
  vm_compute. reflexivity.
Defined.

(** ** The answers of the endpoint *)

Section Endpoint.

Context (json_loads py_eval : string → option parsed).
Context (call_diagnostic_ollama : string → string).
Context (call_ollama : string → result string).
Context (c : corpora).

Lemma analyze_text_nonblank data_text :
  strip (default "" data_text) ≠ "" →
  analyze_text json_loads py_eval call_diagnostic_ollama call_ollama c (Json data_text)
  = match extract_medical_information json_loads py_eval call_diagnostic_ollama
            call_ollama (strip (default "" data_text)) with
    | Ok result => (assemble c result, 200)
    | Raise (ValueError ve) => ({[ "error" := ve ]}, 400)
    | Raise (Exception _) => ({[ "error" := "Internal server error" ]}, 500)
    end.
Proof. intros H. unfold analyze_text. by rewrite is_empty_false. Qed.

Lemma extract_without_diagnosis text :
  strip (call_diagnostic_ollama text) = "" →
  extract_medical_information json_loads py_eval call_diagnostic_ollama call_ollama text
  = (response_text ← call_ollama text;
     extracted_info ← safe_json_loads json_loads py_eval response_text;
     match extracted_info with
     | Dict (Some adverse_events) => Ok (take 5 (collect_events adverse_events))
     | Dict None | NotDict => Raise (ValueError "Invalid response format")
     end).
Proof.
  intros H. unfold extract_medical_information. rewrite H.
  by rewrite andb_false_r.
Qed.


Lemma assemble_no_error (result : list event) : assemble c result !! "error" = None.
Proof.
  apply eq_None_not_Some. unfold assemble.
  intros [H|(n & i & ev & Hn & _ & _ & E)]%run_keys.
  - rewrite lookup_empty in H. by destruct H.
  - by apply field_not_error in E.
Qed.

Lemma kept_from_all_blank seen l :
  (∀ oe, oe ∈ l → strip (default "" (o_Term oe)) = "") → kept_from seen l = [].
Proof.
  induction l as [|oe l IH]; intros H; [done|].
  cbn [kept_from]. assert (Term (to_event oe) = "") as -> by (apply H; left).
  apply IH. intros oe' Hoe'. apply H. by right.
Qed.

End Endpoint.

(** X13. When the service is down (no attempt of either call answers with
    status 200 and a text), a request with a text ends with status 500 and
    the body [{"error": "Internal server error"}]. *)
Theorem X13_service_down_is_internal_error :
  ∀ json_loads_diagnosis py_eval_diagnosis json_loads py_eval
    post_diagnosis post_events c data_text,
    let text := strip (default "" data_text) in
    text ≠ "" →
    (∀ j : nat, (j < 3)%nat → usable (post_diagnosis text j) = None) →
    (∀ j : nat, (j < 3)%nat → usable (post_events text j) = None) →
    analyze_text_served json_loads_diagnosis py_eval_diagnosis json_loads py_eval
      post_diagnosis post_events c (Json data_text)
    = ({[ "error" := "Internal server error" ]}, 500).
Proof.
  intros jd ed jl pe post_d post_e c data_text text Htext Hd He.
  unfold analyze_text_served. rewrite analyze_text_nonblank by done. fold text.
  rewrite extract_without_diagnosis.
  - assert (call_ollama (post_e text) 3
            = Raise (Exception "Failed to get response from Ollama after multiple attempts"))
      as -> by (by apply call_ollama_from_raise).
    done.
  - unfold call_diagnostic_ollama.
    by rewrite call_diagnostic_ollama_from_none.
Qed.

Lemma X13_witness :
  analyze_text_served (λ _, None) (λ _, None) (λ _, None) (λ _, None)
    (λ _ _, PostRaised) (λ _ _, Answered 503 "") (Corpora ∅ ∅ ∅)
    (Json (Some "Patient felt dizzy"))
  = ({[ "error" := "Internal server error" ]}, 500).
Proof.
  apply (X13_service_down_is_internal_error (λ _, None) (λ _, None) (λ _, None) (λ _, None)
           (λ _ _, PostRaised) (λ _ _, Answered 503 "") (Corpora ∅ ∅ ∅)
           (Some "Patient felt dizzy")).
  - vm_compute. discriminate.
  - intros j _. reflexivity.
  - intros j _. reflexivity.
Defined.

(** X14. Every answer of [analyze_text] is either status 200 with a body
    that has no "error" key, or status 400 or 500 with a body that holds
    an error message and nothing else. *)
Theorem X14_status_and_body_agree :
  ∀ json_loads py_eval call_diagnostic_ollama call_ollama c req,
    let answer :=
      analyze_text json_loads py_eval call_diagnostic_ollama call_ollama c req in
    (answer.2 = 200 ∧ answer.1 !! "error" = None) ∨
    ((answer.2 = 400 ∨ answer.2 = 500) ∧ ∃ msg, answer.1 = {[ "error" := msg ]}).
Proof.
  intros jl pe diag co c req answer. subst answer. unfold analyze_text.
  destruct req as [|data_text]; [right; eauto|].
  destruct (is_empty _); [right; eauto|].
  destruct (extract_medical_information _ _ _ _ _) as [result|[ve|msg]].
  - left. split; [done|]. apply assemble_no_error.
  - right; eauto.
  - right; eauto.
Qed.

(** X15. On the event path a reply that parses to something that is not a
    dictionary, or to a dictionary without ["Adverse_Events"], ends the
    request with status 400 and the message "Invalid response format". *)
Theorem X15_invalid_format_is_rejected :
  ∀ json_loads py_eval call_diagnostic_ollama call_ollama c data_text reply extracted_info,
    let text := strip (default "" data_text) in
    text ≠ "" →
    strip (call_diagnostic_ollama text) = "" →
    call_ollama text = Ok reply →
    safe_json_loads json_loads py_eval reply = Ok extracted_info →
    extracted_info = NotDict ∨ extracted_info = Dict None →
    analyze_text json_loads py_eval call_diagnostic_ollama call_ollama c (Json data_text)
    = ({[ "error" := "Invalid response format" ]}, 400).
Proof.
  intros jl pe diag co c data_text reply v text Htext Hdiag Hreply Hparse Hv.
  rewrite analyze_text_nonblank by done. fold text.
  rewrite extract_without_diagnosis by done. rewrite Hreply.
  unfold mbind, result_bind. rewrite Hparse. by destruct Hv as [-> | ->].
Qed.

Lemma X15_witness :
  analyze_text (λ s, if decide (s = "[]") then Some NotDict else None) (λ _, None)
    (λ _, "") (λ _, Ok " [] ") (Corpora ∅ ∅ ∅) (Json (Some "Patient felt dizzy"))
  = ({[ "error" := "Invalid response format" ]}, 400).
Proof.
  apply (X15_invalid_format_is_rejected
           (λ s, if decide (s = "[]") then Some NotDict else None) (λ _, None)
           (λ _, "") (λ _, Ok " [] ") (Corpora ∅ ∅ ∅) (Some "Patient felt dizzy")
           " [] " NotDict).
  - vm_compute. discriminate.
  - reflexivity.
  - reflexivity.
  - vm_compute. reflexivity.
  - left. reflexivity.
Defined.

(** X16. On the event path a reply whose list holds no entry with a term
    (an empty list, or entries with a missing or blank ["Term"]) gives
    status 200 and an empty body. *)
Theorem X16_no_terms_gives_empty_body :
  ∀ json_loads py_eval call_diagnostic_ollama call_ollama c data_text reply adverse_events,
    let text := strip (default "" data_text) in
    text ≠ "" →
    strip (call_diagnostic_ollama text) = "" →
    call_ollama text = Ok reply →
    safe_json_loads json_loads py_eval reply = Ok (Dict (Some adverse_events)) →
    (∀ oe, oe ∈ adverse_events → strip (default "" (o_Term oe)) = "") →
    analyze_text json_loads py_eval call_diagnostic_ollama call_ollama c (Json data_text)
    = (∅, 200).
Proof.
  intros jl pe diag co c data_text reply l text Htext Hdiag Hreply Hparse Hblank.
  rewrite analyze_text_nonblank by done. fold text.
  rewrite extract_without_diagnosis by done. rewrite Hreply.
  unfold mbind, result_bind. rewrite Hparse.
  by rewrite collect_events_kept, kept_from_all_blank.
Qed.

Lemma X16_witness :
  analyze_text
    (λ _, Some (Dict (Some [OracleEvent None (Some "Fatal or death");
                            OracleEvent (Some "  ") None])))
    (λ _, None) (λ _, "") (λ _, Ok "{}") (Corpora ∅ ∅ ∅)
    (Json (Some "Patient felt dizzy"))
  = (∅, 200).
Proof.
  apply (X16_no_terms_gives_empty_body
           (λ _, Some (Dict (Some [OracleEvent None (Some "Fatal or death");
                                   OracleEvent (Some "  ") None])))
           (λ _, None) (λ _, "") (λ _, Ok "{}") (Corpora ∅ ∅ ∅)
           (Some "Patient felt dizzy") "{}"
           [OracleEvent None (Some "Fatal or death"); OracleEvent (Some "  ") None]).
  - vm_compute. discriminate.
  - reflexivity.
  - reflexivity.
  - reflexivity.
  - intros oe [->|[->|H]%elem_of_cons]%elem_of_cons; [reflexivity..|].
    by apply elem_of_nil in H.
Defined.



(** ** How many events the duplicate filter keeps *)

Section DedupeCount.

Lemma distinct_keys_cons oe l :
  distinct_keys (oe :: l) =
    if decide (Term (to_event oe) = "") then distinct_keys l
    else {[term_key (to_event oe)]} ∪ distinct_keys l.
Proof.
  unfold distinct_keys. rewrite fmap_cons, filter_cons.
  destruct (decide (Term (to_event oe) = "")) as [E|E].
  - by rewrite decide_False by (by intros H; apply H).
  - by rewrite decide_True.
Qed.

Lemma kept_from_length seen l :
  length (kept_from seen l) = size (distinct_keys l ∖ seen).
Proof.
  revert seen. induction l as [|oe l IH]; intros seen.
  { unfold distinct_keys. cbn. by rewrite difference_disjoint_L, size_empty by set_solver. }
  cbn [kept_from]. rewrite distinct_keys_cons. unfold is_empty.
  destruct (decide (Term (to_event oe) = "")) as [E|E].
  { rewrite bool_decide_eq_true_2 by done. apply IH. }
  rewrite bool_decide_eq_false_2 by done.
  destruct (decide (term_key (to_event oe) ∈ seen)) as [Hs|Hs].
  - rewrite IH. f_equal. apply set_eq. intros x.
    rewrite !elem_of_difference, elem_of_union, elem_of_singleton.
    split; [intros [? ?]; split; [by right|done]|].
    intros [[->|?] ?]; [done|by split].
  - cbn [length]. rewrite IH.
    assert (({[term_key (to_event oe)]} ∪ distinct_keys l) ∖ seen
            = {[term_key (to_event oe)]}
              ∪ distinct_keys l ∖ ({[term_key (to_event oe)]} ∪ seen)) as ->.
    { apply set_eq. intros x.
      rewrite !elem_of_union, !elem_of_difference, !elem_of_union, !elem_of_singleton.
      split.
      - intros [[->|Hx] Hn]; [by left|].
        destruct (decide (x = term_key (to_event oe))) as [->|Hne]; [by left|].
        right. split; [done|]. by intros [?|?].
      - intros [->|[Hx Hn]]; [split; [by left|done]|].
        split; [by right|]. intros ?. apply Hn. by right. }
    pose proof (size_union (C:=gset string)) as Hunion.
    pose proof (size_singleton (C:=gset string)) as Hsingle.
    rewrite Hunion.
    + by rewrite Hsingle.
    + intros x. rewrite elem_of_singleton, elem_of_difference, elem_of_union,
        elem_of_singleton. intros -> [_ Hn]. apply Hn. by left.
Qed.

Lemma kept_from_complete seen l oe :
  oe ∈ l → Term (to_event oe) ≠ "" →
  term_key (to_event oe) ∈ seen ∨
  ∃ ev, ev ∈ kept_from seen l ∧ term_key ev = term_key (to_event oe).
Proof.
  revert seen. induction l as [|oe' l IH]; intros seen; [by intros ?%elem_of_nil|].
  intros [<-|Hin]%elem_of_cons Hne; cbn [kept_from].
  - rewrite is_empty_false by done.
    destruct (decide (term_key (to_event oe) ∈ seen)); [by left|].
    right. exists (to_event oe). split; [by left|done].
  - destruct (is_empty (Term (to_event oe'))); [by apply IH|].
    destruct (decide (term_key (to_event oe') ∈ seen)); [by apply IH|].
    destruct (IH ({[term_key (to_event oe')]} ∪ seen) Hin Hne)
      as [[E%elem_of_singleton|?]%elem_of_union|(ev & ? & ?)].
    + right. exists (to_event oe'). split; [by left|done].
    + by left.
    + right. exists ev. split; [by right|done].
Qed.

End DedupeCount.

(** X18. Before the cut to five, the duplicate filter loses no term:
    every entry with a term is represented by a kept event with the same
    lowercased term, and the number of kept events is the number of distinct
    terms of the reply. After the cut the extractor hands over exactly
    min(5, that number) events. *)
Theorem X18_one_event_per_distinct_term :
  ∀ adverse_events : list oracle_event,
    (∀ oe, oe ∈ adverse_events → strip (default "" (o_Term oe)) ≠ "" →
       ∃ ev, ev ∈ collect_events adverse_events ∧
             lower (Term ev) = lower (strip (default "" (o_Term oe)))) ∧
    length (collect_events adverse_events) = size (distinct_keys adverse_events) ∧
    length (take 5 (collect_events adverse_events))
      = (5 `min` size (distinct_keys adverse_events))%nat.
Proof.
  intros l. rewrite collect_events_kept.
  assert (length (kept_from ∅ l) = size (distinct_keys l)) as Hlen.
  { by rewrite kept_from_length, difference_empty_L. }
  repeat split; [|done|by rewrite length_take, Hlen].
  intros oe Hin Hne.
  destruct (kept_from_complete ∅ l oe Hin Hne) as [H|(ev & Hev & Hk)];
    [by apply not_elem_of_empty in H|].
  exists ev. split; [done|].
  apply kept_from_elem in Hev as ((oe' & _ & ->) & _).
  rewrite !term_key_lower in Hk. exact Hk.
Qed.

(** ** What the extractor returns for the oracle's entries *)

Section ExtractedEvents.

Lemma distinct_keys_elem l k :
  k ∈ distinct_keys l →
  ∃ oe, oe ∈ l ∧ Term (to_event oe) ≠ "" ∧ term_key (to_event oe) = k.
Proof.
  unfold distinct_keys. rewrite elem_of_list_to_set.
  intros (ev & -> & [Hne (oe & -> & Hoe)%list_elem_of_fmap]%list_elem_of_filter)
    %list_elem_of_fmap.
  eauto.
Qed.

(** The loop over a list in two parts: the second part is read with the
    keys of the first part already met. *)
Lemma kept_from_app seen l1 l2 :
  kept_from seen (l1 ++ l2)
  = (kept_from seen l1 ++ kept_from (seen ∪ distinct_keys l1) l2)%list.
Proof.
  revert seen. induction l1 as [|oe l1 IH]; intros seen.
  { cbn. f_equal. unfold distinct_keys. cbn. apply set_eq. intros x.
    rewrite elem_of_union. split; [by left|]. intros [?|H]; [done|].
    by apply not_elem_of_empty in H. }
  cbn [app kept_from]. rewrite distinct_keys_cons. unfold is_empty.
  destruct (decide (Term (to_event oe) = "")) as [E|E].
  { rewrite bool_decide_eq_true_2 by done. apply IH. }
  rewrite bool_decide_eq_false_2 by done.
  destruct (decide (term_key (to_event oe) ∈ seen)) as [Hs|Hs].
  - rewrite IH. do 2 f_equal. apply set_eq. intros x.
    rewrite !elem_of_union, elem_of_singleton.
    split; [intros [?|?]; auto|]. intros [?|[->|?]]; auto.
  - cbn [app]. rewrite IH. do 3 f_equal. apply set_eq. intros x.
    rewrite !elem_of_union, elem_of_singleton.
    split; [intros [[?|?]|?]; auto|]. intros [?|[?|?]]; auto.
Qed.

(** The first entry with its key is kept, right after the events kept for
    the distinct terms before it. *)
Lemma kept_from_first_occurrence l1 oe l2 :
  Term (to_event oe) ≠ "" →
  (∀ oe', oe' ∈ l1 → term_key (to_event oe') ≠ term_key (to_event oe)) →
  kept_from ∅ (l1 ++ oe :: l2) !! size (distinct_keys l1) = Some (to_event oe).
Proof.
  intros Hne Hfirst. rewrite kept_from_app. cbn [kept_from].
  rewrite is_empty_false by done. rewrite decide_False.
  - rewrite <- (difference_empty_L (distinct_keys l1)) at 1.
    rewrite <- kept_from_length. apply list_lookup_middle. done.
  - intros [H|H]%elem_of_union; [by apply not_elem_of_empty in H|].
    apply distinct_keys_elem in H as (oe' & Hoe' & _ & Hk). by apply (Hfirst oe').
Qed.

End ExtractedEvents.

(** C4. When the diagnosis call yields nothing and the reply parses to a
    list of entries, the extractor returns a list of events such that: it
    has at most five events and at most as many as there are entries, and
    exactly min(5, number of distinct terms); no two of its terms are equal
    once lowercased; each of its events is the first entry of the oracle
    with its lowercased, trimmed term, carrying that entry's own spelling;
    conversely the first entry with a given term is kept, at the place that
    equals the number of distinct terms before it, whenever that number is
    below five; and its terms appear in the order of the entries. *)
Theorem C4_deduplicated_events :
  ∀ json_loads py_eval call_diagnostic_ollama call_ollama text reply
    (adverse_events : list oracle_event),
    strip (call_diagnostic_ollama text) = "" →
    call_ollama text = Ok reply →
    safe_json_loads json_loads py_eval reply = Ok (Dict (Some adverse_events)) →
    ∃ out,
      extract_medical_information json_loads py_eval call_diagnostic_ollama
                                  call_ollama text = Ok out ∧
      (length out ≤ 5)%nat ∧
      (length out ≤ length adverse_events)%nat ∧
      length out = (5 `min` size (distinct_keys adverse_events))%nat ∧
      NoDup ((λ ev, lower (Term ev)) <$> out) ∧
      (∀ ev, ev ∈ out →
         ∃ l1 oe l2,
           adverse_events = (l1 ++ oe :: l2)%list ∧
           Term ev = strip (default "" (o_Term oe)) ∧
           Severity ev = default "None of the above" (o_Severity oe) ∧
           Is_Diagnosis ev = false ∧
           ∀ oe', oe' ∈ l1 →
             strip (lower (strip (default "" (o_Term oe')))) ≠ strip (lower (Term ev))) ∧
      (∀ l1 oe l2,
         adverse_events = (l1 ++ oe :: l2)%list →
         strip (default "" (o_Term oe)) ≠ "" →
         (∀ oe', oe' ∈ l1 →
            strip (lower (strip (default "" (o_Term oe'))))
            ≠ strip (lower (strip (default "" (o_Term oe))))) →
         (size (distinct_keys l1) < 5)%nat →
         out !! size (distinct_keys l1)
         = Some (Event (strip (default "" (o_Term oe)))
                       (default "None of the above" (o_Severity oe)) false)) ∧
      sublist (Term <$> out)
              ((λ oe, strip (default "" (o_Term oe))) <$> adverse_events).
Proof.
  intros jl pe diag co text reply adverse_events Hdiag Hreply Hparse.
  exists (take 5 (collect_events adverse_events)). split.
  { rewrite extract_without_diagnosis by done. rewrite Hreply.
    unfold mbind, result_bind. by rewrite Hparse. }
  rewrite collect_events_kept.
  pose proof (kept_from_sublist ∅ adverse_events) as Hsub.
  assert (sublist (take 5 (kept_from ∅ adverse_events)) (kept_from ∅ adverse_events))
    as Htake by apply sublist_take.
  assert (length (kept_from ∅ adverse_events) = size (distinct_keys adverse_events))
    as Hlen by (by rewrite kept_from_length, difference_empty_L).
  split; [rewrite length_take; lia|].
  split; [apply sublist_length in Hsub, Htake; rewrite length_fmap in Hsub; lia|].
  split; [by rewrite length_take, Hlen|].
  split.
  { assert (NoDup (term_key <$> take 5 (kept_from ∅ adverse_events))) as Hnd.
    { eapply sublist_NoDup; [apply kept_from_NoDup|]. by apply fmap_sublist. }
    erewrite list_fmap_ext; [exact Hnd|].
    intros i ev Hi. apply list_elem_of_lookup_2 in Hi.
    eapply elem_of_sublist in Hi; [|exact Htake].
    apply kept_from_elem in Hi as ((oe & _ & ->) & _). by rewrite term_key_lower. }
  split.
  { intros ev Hin. eapply elem_of_sublist in Hin; [|exact Htake].
    apply kept_from_first in Hin as (l1 & oe & l2 & -> & -> & Hfirst).
    exists l1, oe, l2. repeat split. intros oe' Hoe'. by apply Hfirst. }
  split.
  { intros l1 oe l2 -> Hne Hfirst Hlt.
    rewrite lookup_take_lt by done.
    by apply (kept_from_first_occurrence l1 oe l2). }
  etrans; [apply fmap_sublist, Htake|].
  etrans; [apply fmap_sublist, Hsub|].
  rewrite <- list_fmap_compose. done.
Qed.

Lemma C4_witness :
  let adverse_events :=
    [OracleEvent (Some "Rash") (Some "Severe");
     OracleEvent (Some "  ") (Some "Fatal or death");
     OracleEvent (Some " rash ") None;
     OracleEvent (Some "Nausea") (Some "")] in
  let json_loads := (λ _ : string, Some (Dict (Some adverse_events))) in
  let py_eval := (λ _ : string, @None parsed) in
  let call_diagnostic_ollama := (λ _ : string, "") in
  let call_ollama := (λ _ : string, Ok "{}") in
  ∃ out,
    extract_medical_information json_loads py_eval call_diagnostic_ollama
                                call_ollama "Rash and nausea" = Ok out ∧
    (length out ≤ 5)%nat ∧
    (length out ≤ length adverse_events)%nat ∧
    length out = (5 `min` size (distinct_keys adverse_events))%nat ∧
    NoDup ((λ ev, lower (Term ev)) <$> out) ∧
    (∀ ev, ev ∈ out →
       ∃ l1 oe l2,
         adverse_events = (l1 ++ oe :: l2)%list ∧
         Term ev = strip (default "" (o_Term oe)) ∧
         Severity ev = default "None of the above" (o_Severity oe) ∧
         Is_Diagnosis ev = false ∧
         ∀ oe', oe' ∈ l1 →
           strip (lower (strip (default "" (o_Term oe')))) ≠ strip (lower (Term ev))) ∧
    (∀ l1 oe l2,
       adverse_events = (l1 ++ oe :: l2)%list →
       strip (default "" (o_Term oe)) ≠ "" →
       (∀ oe', oe' ∈ l1 →
          strip (lower (strip (default "" (o_Term oe'))))
          ≠ strip (lower (strip (default "" (o_Term oe))))) →
       (size (distinct_keys l1) < 5)%nat →
       out !! size (distinct_keys l1)
       = Some (Event (strip (default "" (o_Term oe)))
                     (default "None of the above" (o_Severity oe)) false)) ∧
    sublist (Term <$> out)
            ((λ oe, strip (default "" (o_Term oe))) <$> adverse_events).
Proof.
  intros adverse_events json_loads py_eval call_diagnostic_ollama call_ollama.
  apply (C4_deduplicated_events json_loads py_eval call_diagnostic_ollama call_ollama
           "Rash and nausea" "{}" adverse_events).
  - reflexivity.
  - reflexivity.
  - reflexivity.
Defined.

(** ** Substrings of trimmed strings, and the fields of a split *)

Section Substrings.

Lemma startswith_trans p r s :
  startswith p r = true → startswith r s = true → startswith p s = true.
Proof.
  revert r s. induction p as [|a p IH]; intros r s; [done|].
  destruct r as [|b r]; [done|]. destruct s as [|d s]; [done|].
  intros [-> Hp]%startswith_head [-> Hr]%startswith_head.
  cbn [startswith]. rewrite decide_True by done. by eapply IH.
Qed.

Lemma startswith_contains p s : startswith p s = true → contains p s = true.
Proof. intros H. destruct s; cbn [contains]; by rewrite H. Qed.

(** An occurrence in a prefix is an occurrence in the whole. *)
Lemma contains_of_prefix p r s :
  startswith r s = true → contains p r = true → contains p s = true.
Proof.
  revert s. induction r as [|a r IH]; intros s Hrs.
  - intros ->%contains_in_nil. by apply contains_nil.
  - destruct s as [|d s]; [done|]. pose proof Hrs as [-> Hr]%startswith_head.
    rewrite contains_unfold. intros [H|H]%orb_true_iff.
    + apply startswith_contains. by eapply startswith_trans.
    + apply contains_cons. by apply IH.
Qed.

Lemma rstrip_prefix s : startswith (rstrip s) s = true.
Proof.
  induction s as [|c s IH]; [done|].
  cbn [rstrip]. destruct (rstrip s) as [|d r] eqn:E.
  - destruct (is_space c); [done|]. cbn [startswith]. by rewrite decide_True.
  - cbn [startswith]. rewrite decide_True by done. exact IH.
Qed.

Lemma contains_of_lstrip p s : contains p (lstrip s) = true → contains p s = true.
Proof.
  induction s as [|c s IH]; [done|]. cbn [lstrip].
  destruct (is_space c); [|done]. intros H. by apply contains_cons, IH.
Qed.

Lemma contains_of_strip p s : contains p (strip s) = true → contains p s = true.
Proof.
  intros H. apply contains_of_lstrip.
  eapply contains_of_prefix; [apply rstrip_prefix|exact H].
Qed.

Lemma contains_strip_false p s : contains p s = false → contains p (strip s) = false.
Proof.
  intros H. destruct (contains p (strip s)) eqn:E; [|done].
  apply contains_of_strip in E. congruence.
Qed.

Lemma contains_char_cons a c s :
  contains (String a "") (String c s) = bool_decide (a = c) || contains (String a "") s.
Proof.
  rewrite contains_unfold. cbn [startswith].
  by destruct (decide (a = c)); [rewrite bool_decide_eq_true_2|rewrite bool_decide_eq_false_2].
Qed.

Lemma contains_char_rev_app a s acc :
  contains (String a "") (String.rev_app s acc)
  = contains (String a "") s || contains (String a "") acc.
Proof.
  revert acc. induction s as [|c s IH]; intros acc; [done|].
  cbn [String.rev_app]. rewrite IH, !contains_char_cons.
  destruct (bool_decide (a = c)), (contains (String a "") s); done.
Qed.

Lemma contains_char_rev a s :
  contains (String a "") (String.rev s) = contains (String a "") s.
Proof. unfold String.rev. by rewrite contains_char_rev_app, orb_false_r. Qed.

(** No field of a split holds the separator. *)
Lemma split_go_no_sep sep cur s piece :
  contains (String sep "") cur = false →
  piece ∈ split_go sep cur s →
  contains (String sep "") piece = false.
Proof.
  revert cur. induction s as [|c s IH]; intros cur Hcur; cbn [split_go].
  - intros ->%list_elem_of_singleton. by rewrite contains_char_rev.
  - destruct (decide (c = sep)) as [->|Hne].
    + intros [->|H]%elem_of_cons; [by rewrite contains_char_rev|].
      by apply (IH "").
    + apply IH. rewrite contains_char_cons, Hcur.
      by rewrite bool_decide_eq_false_2.
Qed.

End Substrings.

(** X19. Every event made from a diagnosed condition is flagged as a
    diagnosis and carries the placeholder severity; its term is trimmed,
    is not empty and holds no comma. *)
Theorem X19_diagnosed_events_are_well_formed :
  ∀ diagnosed_condition ev,
    strip diagnosed_condition ≠ "" →
    ev ∈ diagnosed_events diagnosed_condition →
    Is_Diagnosis ev = true ∧ Severity ev = "To be determined" ∧
    Term ev ≠ "" ∧ strip (Term ev) = Term ev ∧ contains "," (Term ev) = false.
Proof.
  intros dc ev Hdc Hin.
  pose proof (diagnosed_events_nonempty dc ev Hdc Hin) as Hne.
  revert Hin Hne. unfold diagnosed_events. destruct (contains "," dc) eqn:Hcomma.
  - intros (cond & -> & (raw & -> & Hraw)%list_elem_of_fmap)%list_elem_of_fmap.
    cbn [Term Severity Is_Diagnosis]. rewrite strip_idemp. intros Hne.
    repeat split; [done|].
    apply contains_strip_false.
    apply list_elem_of_In, filter_In in Hraw as [Hraw _]. apply list_elem_of_In in Hraw.
    by eapply (split_go_no_sep ","%char "").
  - intros ->%list_elem_of_singleton. cbn [Term Severity Is_Diagnosis].
    rewrite strip_idemp. intros Hne. repeat split; [done|].
    by apply contains_strip_false.
Qed.

Lemma X19_witness :
  let ev := Event "acute kidney injury" "To be determined" true in
  Is_Diagnosis ev = true ∧ Severity ev = "To be determined" ∧
  Term ev ≠ "" ∧ strip (Term ev) = Term ev ∧ contains "," (Term ev) = false.
Proof.
  apply (X19_diagnosed_events_are_well_formed
           "drug-induced hepatitis, acute kidney injury,,"
           (Event "acute kidney injury" "To be determined" true)).
  - vm_compute. discriminate.
  - vm_compute. apply elem_of_cons. right. apply elem_of_cons. left. reflexivity.
Defined.

(** ** Cleaning the reply *)

Section Fences.

Lemma remove_fences_go_keep c s :
  startswith "```" (String c s) = false →
  remove_fences_go 0 (String c s) = String c (remove_fences_go 0 s).
Proof.
  intros H. cbn [remove_fences_go].
  assert (startswith "```json" (String c s) = false) as ->.
  { destruct (startswith "```json" (String c s)) eqn:E; [|done].
    rewrite <- H. symmetry. eapply startswith_trans; [|exact E]. done. }
  by rewrite H.
Qed.

Lemma contains_false_cons p c s :
  contains p (String c s) = false →
  startswith p (String c s) = false ∧ contains p s = false.
Proof. rewrite contains_unfold. by intros [? ?]%orb_false_iff. Qed.

Lemma remove_fences_go_id s :
  contains "```" s = false → remove_fences_go 0 s = s.
Proof.
  induction s as [|c s IH]; [done|].
  intros [Hs Hc]%contains_false_cons.
  by rewrite remove_fences_go_keep, IH.
Qed.

(** A character that is no backquote is kept where it stands. *)
Lemma remove_fences_go_head c s :
  c ≠ "`"%char →
  remove_fences_go 0 (String c s) = String c (remove_fences_go 0 s).
Proof.
  intros Hc. apply remove_fences_go_keep.
  cbn [startswith]. by rewrite decide_False by (by intros <-).
Qed.

Lemma remove_fences_go_backquote s o :
  remove_fences_go 0 s = String "`" o → ∃ s', s = String "`" s'.
Proof.
  destruct s as [|c s]; [done|].
  destruct (decide (c = "`"%char)) as [->|Hc]; [eauto|].
  rewrite remove_fences_go_head by done. intros [= ? _]. done.
Qed.

Lemma startswith_two_backquotes s :
  startswith "``" (remove_fences_go 0 s) = true → startswith "``" s = true.
Proof.
  intros H.
  destruct (remove_fences_go 0 s) as [|a o] eqn:E; [done|].
  apply startswith_head in H as [<- H].
  pose proof E as [s' ->]%remove_fences_go_backquote.
  destruct (startswith "```" (String "`" s')) eqn:F.
  { eapply startswith_trans; [|exact F]. done. }
  rewrite remove_fences_go_keep in E by done. injection E as E.
  destruct o as [|b o]; [done|].
  apply startswith_head in H as [<- _].
  apply remove_fences_go_backquote in E as [s'' ->]. done.
Qed.

Lemma remove_fences_go_clean s (skip : nat) :
  contains "```" (remove_fences_go skip s) = false.
Proof.
  revert skip. induction s as [|c s IH]; intros skip; [by destruct skip|].
  destruct skip as [|k]; [|apply IH].
  cbn [remove_fences_go].
  destruct (startswith "```json" (String c s)); [apply IH|].
  destruct (startswith "```" (String c s)) eqn:F; [apply IH|].
  rewrite contains_unfold, IH, orb_false_r.
  destruct (startswith "```" (String c (remove_fences_go 0 s))) eqn:G; [|done].
  apply startswith_head in G as [<- G].
  apply startswith_two_backquotes in G.
  rewrite <- F. cbn [startswith]. by rewrite decide_True.
Qed.

End Fences.

(** X20. Removing the code-block markers leaves a text without any
    backquote triple, and leaves a text that has none as it is. *)
Theorem X20_remove_fences_cleans :
  ∀ text,
    contains "```" (remove_fences text) = false ∧
    (contains "```" text = false → remove_fences text = text) ∧
    remove_fences (remove_fences text) = remove_fences text.
Proof.
  intros text. unfold remove_fences.
  pose proof (remove_fences_go_clean text 0) as Hclean.
  repeat split; [done|apply remove_fences_go_id|by apply remove_fences_go_id].
Qed.

(** ** The text between the braces *)

Section Braces.

Lemma upto_last_brace_none s :
  upto_last_brace s = None ↔ contains "}" s = false.
Proof.
  induction s as [|c s IH]; [done|].
  cbn [upto_last_brace]. rewrite contains_char_cons.
  destruct (upto_last_brace s) as [r|].
  - split; [done|]. intros [_ H]%orb_false_iff. apply IH in H. done.
  - destruct (decide (c = "}"%char)) as [->|Hc].
    + split; [done|]. by rewrite bool_decide_eq_true_2.
    + rewrite bool_decide_eq_false_2 by (by intros <-). split; [|done].
      intros _. by apply IH.
Qed.

Lemma upto_last_brace_some s r :
  upto_last_brace s = Some r ↔
  ∃ m b, s = m +:+ "}" +:+ b ∧ r = m +:+ "}" ∧ contains "}" b = false.
Proof.
  revert r. induction s as [|c s IH]; intros r.
  { split; [done|]. intros (m & b & H & _). by destruct m. }
  cbn [upto_last_brace]. split.
  - destruct (upto_last_brace s) as [r'|] eqn:E.
    + intros [= <-]. destruct (proj1 (IH r') eq_refl) as (m & b & -> & -> & Hb).
      by exists (String c m), b.
    + destruct (decide (c = "}"%char)) as [->|Hc]; [|done].
      intros [= <-]. exists "", s. repeat split. by apply upto_last_brace_none.
  - intros (m & b & Hs & -> & Hb). destruct m as [|a m].
    + change (String c s = String "}" b) in Hs. injection Hs as ? ?; subst.
      apply upto_last_brace_none in Hb. rewrite Hb. by rewrite decide_True.
    + change (String c s = String a (m +:+ "}" +:+ b)) in Hs.
      injection Hs as ? ?; subst.
      assert (upto_last_brace (m +:+ "}" +:+ b) = Some (m +:+ "}")) as ->; [|done].
      apply IH. by exists m, b.
Qed.

End Braces.

(** X21. The second strategy parses the text that runs from the first
    opening brace to the last closing brace after it: [brace_search] gives
    [{m}] exactly when the text is [a{m}b] with no opening brace in [a] and
    no closing brace in [b]. *)
Theorem X21_brace_search_first_to_last :
  ∀ text g,
    brace_search text = Some g ↔
    ∃ a m b, text = a +:+ "{" +:+ m +:+ "}" +:+ b ∧ g = "{" +:+ m +:+ "}" ∧
             contains "{" a = false ∧ contains "}" b = false.
Proof.
  intros text. induction text as [|c s IH]; intros g.
  { split; [done|]. intros (a & m & b & H & _). by destruct a. }
  cbn [brace_search]. destruct (decide (c = "{"%char)) as [->|Hc].
  - split.
    + destruct (upto_last_brace s) as [r|] eqn:E; [|done]. intros [= <-].
      apply upto_last_brace_some in E as (m & b & -> & -> & Hb).
      by exists "", m, b.
    + intros (a & m & b & Hs & -> & Ha & Hb). destruct a as [|d a].
      * change (String "{" s = String "{" (m +:+ "}" +:+ b)) in Hs.
        injection Hs as ?; subst.
        assert (upto_last_brace (m +:+ "}" +:+ b) = Some (m +:+ "}")) as ->; [|done].
        apply upto_last_brace_some. by exists m, b.
      * change (String "{" s = String d (a +:+ "{" +:+ m +:+ "}" +:+ b)) in Hs.
        injection Hs as ? ?; subst.
        by rewrite contains_char_cons, bool_decide_eq_true_2 in Ha.
  - rewrite IH. split.
    + intros (a & m & b & -> & -> & Ha & Hb). exists (String c a), m, b.
      repeat split; [|done]. rewrite contains_char_cons, Ha.
      by rewrite bool_decide_eq_false_2 by (by intros <-).
    + intros (a & m & b & Hs & -> & Ha & Hb). destruct a as [|d a].
      * change (String c s = String "{" (m +:+ "}" +:+ b)) in Hs.
        injection Hs as ? ?; subst. done.
      * change (String c s = String d (a +:+ "{" +:+ m +:+ "}" +:+ b)) in Hs.
        injection Hs as ? ?; subst. exists a, m, b. repeat split; [|done].
        rewrite contains_char_cons in Ha. by apply orb_false_iff in Ha as [_ ?].
Qed.

(** ** A reply inside a code block *)

Section FencedReply.

Lemma app_cons a s t : String a s +:+ t = String a (s +:+ t).
Proof. done. Qed.

Lemma startswith_fence_cons (a b : ascii) s :
  a ≠ "`"%char ∨ b ≠ "`"%char →
  startswith "```" (String "`" (String a (String b s))) = false.
Proof.
  intros H. cbn [startswith]. rewrite decide_True by done.
  destruct (decide ("`"%char = a)) as [<-|?]; [|done].
  destruct (decide ("`"%char = b)) as [<-|?]; [|done]. by destruct H.
Qed.

(** The closing marker goes, and with it nothing of a body that holds no
    marker. *)
Lemma remove_fences_go_closing body :
  contains "```" body = false →
  remove_fences_go 0 (body +:+ "```") = body.
Proof.
  induction body as [|c b IH]; [done|].
  intros [Hs Hc]%contains_false_cons. specialize (IH Hc).
  rewrite app_cons.
  destruct (decide (c = "`"%char)) as [->|Hne];
    [|by rewrite remove_fences_go_head, IH].
  destruct b as [|y b]; [done|]. rewrite app_cons in *.
  destruct (decide (y = "`"%char)) as [->|Hy].
  - destruct b as [|z b]; [done|]. rewrite app_cons in *.
    assert (z ≠ "`"%char) as Hz.
    { intros ->. cbn [startswith] in Hs. by rewrite !decide_True in Hs. }
    rewrite remove_fences_go_keep, IH; [done|].
    apply startswith_fence_cons. by right.
  - destruct b as [|z b].
    + rewrite remove_fences_go_keep, IH; [done|].
      apply startswith_fence_cons. by left.
    + rewrite app_cons in *. rewrite remove_fences_go_keep, IH; [done|].
      apply startswith_fence_cons. by left.
Qed.

Lemma rstrip_app_fixed p t :
  t ≠ "" → rstrip t = t → rstrip (p +:+ t) = p +:+ t.
Proof.
  intros Ht Hfix. induction p as [|a p IH]; [done|].
  rewrite app_cons, rstrip_cons_nonempty; rewrite IH; [done|].
  destruct p; [done|]. by rewrite app_cons.
Qed.

Lemma strip_fenced body :
  strip ("```json" +:+ body +:+ "```") = "```json" +:+ body +:+ "```".
Proof.
  unfold strip.
  change ("```json" +:+ body +:+ "```") with (String "`" ("``json" +:+ body +:+ "```")).
  rewrite lstrip_fixed by done.
  change (String "`" ("``json" +:+ body +:+ "```"))
    with ("```json" +:+ (body +:+ "```")).
  apply rstrip_app_fixed.
  - by destruct body.
  - by apply rstrip_app_fixed.
Qed.

End FencedReply.

(** X22. A reply wrapped in a code block marked [json] is parsed exactly
    like its body, when the body holds no backquote triple. *)
Theorem X22_fenced_reply_parses_like_its_body :
  ∀ json_loads py_eval body,
    contains "```" body = false →
    safe_json_loads json_loads py_eval ("```json" +:+ body +:+ "```")
    = safe_json_loads json_loads py_eval body.
Proof.
  intros jl pe body Hbody. unfold safe_json_loads.
  rewrite strip_fenced.
  assert (remove_fences ("```json" +:+ body +:+ "```") = body) as ->.
  { unfold remove_fences.
    change (remove_fences_go 0 ("```json" +:+ body +:+ "```"))
      with (remove_fences_go 0 (body +:+ "```")).
    by apply remove_fences_go_closing. }
  assert (remove_fences (strip body) = strip body) as ->.
  { apply remove_fences_go_id. by apply contains_strip_false. }
  by rewrite strip_idemp.
Qed.

Lemma X22_witness :
  let json_loads := (λ s : string,
        if decide (s = "{}") then Some (Dict (Some [])) else None) in
  safe_json_loads json_loads (λ _, None) ("```json" +:+ " {} " +:+ "```")
  = safe_json_loads json_loads (λ _, None) " {} ".
Proof.
  intros json_loads.
  apply (X22_fenced_reply_parses_like_its_body json_loads (λ _, None) " {} ").
  vm_compute. reflexivity.
Defined.

(** ** The oracle's severity and the failure of the load *)

Section Remaining.

(** The function used for the diagnosis reply is [safe_json_loads]. *)
Lemma safe_json_loads_at_parsed json_loads py_eval text :
  safe_json_loads_at (A:=parsed) json_loads py_eval text
  = safe_json_loads json_loads py_eval text.
Proof. done. Qed.

End Remaining.

(** X23. Without a corpus match, a severity of the oracle that is no
    placeholder is passed through unchanged, for any term and either value
    of the diagnosis flag: the keyword rules are not consulted, so a term
    that mentions a death keeps the severity the oracle gave it. *)
Theorem X23_oracle_severity_passes_through :
  ∀ c ev,
    strip (Term ev) ≠ "" →
    check_csv_severity (Term ev) c = None →
    is_placeholder (Severity ev) = false →
    resolve_event c ev =
      Some (Resolved (strip (Term ev)) (Severity ev) (seriousness_of (Severity ev))).
Proof.
  intros c ev Hne Hcsv Hph. unfold resolve_event.
  by rewrite is_empty_false, Hph, check_csv_severity_strip, Hcsv by done.
Qed.

Lemma X23_witness :
  resolve_event (Corpora {["hepatitis"]} ∅ ∅)
    (Event "patient died" "None of the above" false)
  = Some (Resolved (strip "patient died") "None of the above"
            (seriousness_of "None of the above")).
Proof.
  apply (X23_oracle_severity_passes_through (Corpora {["hepatitis"]} ∅ ∅)
           (Event "patient died" "None of the above" false)).
  - vm_compute. discriminate.
  - vm_compute. reflexivity.
  - vm_compute. reflexivity.
Defined.

(** X24. The load of the corpora fails exactly when one of the three
    sources is unreadable, and then with the exception of the first
    unreadable one in the order medically significant, significant
    disability, congenital anomaly: one unreadable file stops the start-up
    even when the two others are fine. *)
Theorem X24_first_unreadable_source_fails_the_load :
  ∀ ms sd ca e,
    load_ae_terms_from_csv ms sd ca = Raise e ↔
    ms = Unreadable e ∨
    ((∀ e', ms ≠ Unreadable e') ∧
     (sd = Unreadable e ∨ ((∀ e', sd ≠ Unreadable e') ∧ ca = Unreadable e))).
Proof.
  intros ms sd ca e. unfold load_ae_terms_from_csv, mbind, result_bind. split.
  - destruct ms as [|e1|m], sd as [|e2|s], ca as [|e3|a]; cbn [load_terms];
      intros H; simplify_eq;
      first [ by left
            | right; split; [done|]; first [ by left | right; by split ] ].
  - intros [->|[Hms [->|[Hsd ->]]]]; [done| |].
    + destruct ms as [|e1|m]; [done|by destruct (Hms e1)|done].
    + destruct ms as [|e1|m]; [|by destruct (Hms e1)|];
        (destruct sd as [|e2|s]; [done|by destruct (Hsd e2)|done]).
Qed.
